(** * Verification of [mlagents/trainers/demo_loader.py]

    A shallow embedding of the demonstration loader of ml-agents: the
    length-delimited frame reader, the per-file scanner and the multi-file
    aggregator of [load_demonstration], and the trajectory buffer builder
    [make_demo_buffer]. *)

From Stdlib Require Import ZArith NArith Lia.
From Stdlib.Strings Require Import Byte Ascii.
From stdpp Require Import gmap strings list pretty.

Open Scope Z_scope.
Open Scope nat_scope.

(** ** Errors and results *)

(** The exceptions the module can raise, named after the error taxonomy of
    the specification.  [EmptyInput] and [TruncatedFrame] belong to that
    taxonomy; no statement of the source raises them. *)
Inductive error : Type :=
| PathNotFound      (* FileNotFoundError, line 94 *)
| NoDemoFiles       (* ValueError, line 84 *)
| WrongExtension    (* ValueError, line 89 *)
| EmptyInput
| TruncatedVarint   (* IndexError: the varint decoder indexes past the buffer *)
| TruncatedFrame
| InvalidFormat     (* DecodeError of a protobuf decoder *)
| OpenFailed        (* OSError of open(), line 103: for an entry that does not exist
                       it is a FileNotFoundError too, raised by open() itself *)
| IndexError        (* a list indexed out of range *)
| BufferException   (* raised by Buffer.append_update_buffer *)
| OutOfFuel.        (* the loop model ran out of fuel: never happens, see [scan_loop_fuel] *)

Inductive result (A : Type) : Type :=
| Ok (a : A)
| Err (e : error).
Arguments Ok {A} a.
Arguments Err {A} e.

Global Instance result_ret : MRet result := @Ok.
Global Instance result_bind : MBind result := λ A B f m,
  match m with
  | Ok a => f a
  | Err e => Err e
  end.

Definition of_option {A} (e : error) (o : option A) : result A :=
  match o with
  | Some a => Ok a
  | None => Err e
  end.

(** ** Bytes and slices *)

Abbreviation bytes := (list byte).

(** Python's [data[lo:hi]] for [0 <= lo]: out-of-range bounds are clipped
    silently. *)
Definition slice {A} (data : list A) (lo hi : nat) : list A :=
  take (hi - lo) (drop lo data).

(** ** The varint decoder *)

(** Modelled from the spec: [_DecodeVarint32] is imported from
    [google.protobuf.internal.decoder], which is not under src/.  Section 4.1
    and 6 of the specification: an unsigned little-endian base-128 integer,
    seven data bits per byte, the high bit of a byte says another byte
    follows, standard protocol-buffer varint32.  The decoder reads
    [buffer[pos]] (an IndexError past the end of the buffer: the chain is
    truncated), masks the value to 32 bits, and, as the standard decoder
    does, refuses a chain of ten continuation bytes with a DecodeError.
    It returns the value and the position after the varint. *)
Fixpoint decode_varint_loop (rest : bytes) (acc shift : N) (pos : nat)
  : result (nat * nat) :=
  match rest with
  | [] => Err TruncatedVarint
  | b :: rest' =>
      let b := Byte.to_N b in
      let acc := N.lor acc (N.shiftl (N.land b 127) shift) in
      let pos := S pos in
      if (N.land b 128 =? 0)%N then
        Ok (N.to_nat (N.land acc (N.ones 32)), pos)
      else
        let shift := (shift + 7)%N in
        if (64 <=? shift)%N then Err InvalidFormat
        else decode_varint_loop rest' acc shift pos
  end.

Definition _DecodeVarint32 (buffer : bytes) (pos : nat) : result (nat * nat) :=
  decode_varint_loop (drop pos buffer) 0%N 0%N pos.

(** One frame as [load_demonstration] reads it (lines 106 and 109, 114, 119):
    the declared length, the position of the body, and the body
    [data[pos : pos + next_pos]]. *)
Definition read_frame (data : bytes) (pos : nat) : result (bytes * nat * nat) :=
  '(next_pos, pos) ← _DecodeVarint32 data pos;
  Ok (slice data pos (pos + next_pos), next_pos, pos).

Example varint_small : _DecodeVarint32 [x05; x01; x02] 0 = Ok (5, 1).
Proof. reflexivity. Qed.

Example varint_two_bytes : _DecodeVarint32 [xac; x02] 0 = Ok (300, 2).
Proof. vm_compute. reflexivity. Qed.

Example read_short : read_frame [x05; x01; x02] 0 = Ok ([x01; x02], 5, 1).
Proof. reflexivity. Qed.

(** ** Paths and the file system *)

(** [str.endswith]. *)
Definition endswith (s suffix : string) : bool :=
  let n := String.length s in
  let m := String.length suffix in
  (m <=? n) && String.eqb (String.substring (n - m) m s) suffix.

(** [os.path.join] of posixpath, for two components. *)
Definition path_join (a b : string) : string :=
  if String.prefix "/" b then b
  else if String.eqb a "" || endswith a "/" then a +:+ b
  else a +:+ "/" +:+ b.

(** The final component of a path: the text after the last ["/"], trailing
    separators dropped. *)
Fixpoint path_name_go (s cur last : string) : string :=
  match s with
  | EmptyString => if String.eqb cur "" then last else cur
  | String c s' =>
      if Ascii.eqb c "/"%char
      then path_name_go s' "" (if String.eqb cur "" then last else cur)
      else path_name_go s' (cur +:+ String c EmptyString) last
  end.
Definition path_name (path : string) : string := path_name_go path "" "".

Fixpoint rfind_dot (s : string) (i : nat) (last : option nat) : option nat :=
  match s with
  | EmptyString => last
  | String c s' => rfind_dot s' (S i) (if Ascii.eqb c "."%char then Some i else last)
  end.

(** [pathlib.Path(path).suffix]: the part of the final component from its
    last dot on, empty when that dot is the first or the last character. *)
Definition path_suffix (path : string) : string :=
  let name := path_name path in
  match rfind_dot name 0 None with
  | Some i =>
      if (0 <? i) && (i <? String.length name - 1)
      then String.substring i (String.length name - i) name
      else ""
  | None => ""
  end.

Inductive node : Type :=
| Directory (entries : list string)     (* os.listdir, in its order *)
| RegularFile (content : bytes).

Abbreviation filesystem := (string → option node).

Definition isdir (fs : filesystem) (path : string) : bool :=
  match fs path with Some (Directory _) => true | _ => false end.
Definition isfile (fs : filesystem) (path : string) : bool :=
  match fs path with Some (RegularFile _) => true | _ => false end.
Definition listdir (fs : filesystem) (path : string) : list string :=
  match fs path with Some (Directory entries) => entries | _ => [] end.
(** [open(path, "rb").read()] *)
Definition read_file (fs : filesystem) (path : string) : result bytes :=
  match fs path with Some (RegularFile content) => Ok content | _ => Err OpenFailed end.

Example suffix_demo : path_suffix "demos/run1.demo" = ".demo".
Proof. reflexivity. Qed.
Example suffix_hidden : path_suffix "demos/.demo" = "".
Proof. reflexivity. Qed.
Example join_demo : path_join "demos" "a.demo" = "demos/a.demo".
Proof. reflexivity. Qed.

(** ** The records decoded from a file *)

(** The protobuf messages and the two constructors of [mlagents.envs.brain]
    are external to this module: a decoder takes a byte slice and returns a
    record or fails.  [BP] is [BrainParameters], [BI] is [BrainInfo]. *)
Class Protocol (BP BI : Type) : Type := {
  DemonstrationMetaProto : Type;
  BrainParametersProto : Type;
  AgentInfoProto : Type;
  (* meta_data_proto.number_steps *)
  number_steps : DemonstrationMetaProto → Z;
  (* DemonstrationMetaProto().ParseFromString *)
  ParseMeta : bytes → option DemonstrationMetaProto;
  (* BrainParametersProto().ParseFromString *)
  ParseBrainParameters : bytes → option BrainParametersProto;
  (* AgentInfoProto().ParseFromString *)
  ParseAgentInfo : bytes → option AgentInfoProto;
  (* BrainParameters.from_proto(brain_param_proto, agent_info) *)
  from_proto : option BrainParametersProto → AgentInfoProto → option BP;
  (* BrainInfo.from_agent_proto(0, [agent_info], brain_params) *)
  from_agent_proto : AgentInfoProto → BP → option BI;
}.

(** ** [load_demonstration] *)

Inductive control (S : Type) : Type :=
| Next (s : S)      (* the loop body ran to its end *)
| Break (s : S).    (* the loop body ran into [break] *)
Arguments Next {S} s.
Arguments Break {S} s.

Section Loader.
Context {BP BI : Type} `{P : Protocol BP BI}.

(** The local variables of [load_demonstration] that the loops update. *)
Record scan_state : Type := ScanState {
  brain_params : option BP;
  brain_param_proto : option BrainParametersProto;
  brain_infos : list BI;
  total_expected : Z;
  pos : nat;
  obs_decoded : nat;
}.

Definition INITIAL_POS : nat := 33.

(** Lines 98-101. *)
Definition initial_state : scan_state :=
  ScanState None None [] 0%Z 0 0.

(** One turn of the [while] loop, lines 106-129. *)
Definition scan_step (data : bytes) (s : scan_state) : result (control scan_state) :=
  '(next_pos, pos) ← _DecodeVarint32 data (pos s);
  match obs_decoded s with
  | 0 =>
      meta_data_proto ← of_option InvalidFormat (ParseMeta (slice data pos (pos + next_pos)));
      let total_expected := (total_expected s + number_steps meta_data_proto)%Z in
      let pos := INITIAL_POS in
      Ok (Next (ScanState (brain_params s) (brain_param_proto s) (brain_infos s)
                  total_expected pos (S (obs_decoded s))))
  | 1 =>
      brain_param_proto ← of_option InvalidFormat
                            (ParseBrainParameters (slice data pos (pos + next_pos)));
      let pos := pos + next_pos in
      Ok (Next (ScanState (brain_params s) (Some brain_param_proto) (brain_infos s)
                  (total_expected s) pos (S (obs_decoded s))))
  | _ =>
      agent_info ← of_option InvalidFormat (ParseAgentInfo (slice data pos (pos + next_pos)));
      brain_params ←
        match brain_params s with
        | None => of_option InvalidFormat (from_proto (brain_param_proto s) agent_info)
        | Some brain_params => Ok brain_params
        end;
      brain_info ← of_option InvalidFormat (from_agent_proto agent_info brain_params);
      let brain_infos := brain_infos s ++ [brain_info] in
      if (Z.of_nat (length brain_infos) =? total_expected s)%Z then
        Ok (Break (ScanState (Some brain_params) (brain_param_proto s) brain_infos
                     (total_expected s) pos (obs_decoded s)))
      else
        let pos := pos + next_pos in
        Ok (Next (ScanState (Some brain_params) (brain_param_proto s) brain_infos
                    (total_expected s) pos (S (obs_decoded s))))
  end.

(** [while pos < len(data)], lines 105-129.  Every turn but the first moves
    the cursor forward, so [S (length data)] turns are enough
    ([scan_loop_fuel]). *)
Fixpoint scan_loop (fuel : nat) (data : bytes) (s : scan_state) : result scan_state :=
  if pos s <? length data then
    match fuel with
    | 0 => Err OutOfFuel
    | S fuel =>
        c ← scan_step data s;
        match c with
        | Next s' => scan_loop fuel data s'
        | Break s' => Ok s'
        end
    end
  else Ok s.

(** The body of [for _file_path in file_paths] once the file is read:
    lines 104-129. *)
Definition scan_file (data : bytes) (s : scan_state) : result scan_state :=
  scan_loop (S (length data)) data
    (ScanState (brain_params s) (brain_param_proto s) (brain_infos s) (total_expected s) 0 0).

(** Lines 102-129. *)
Fixpoint scan_files (fs : filesystem) (file_paths : list string) (s : scan_state)
  : result scan_state :=
  match file_paths with
  | [] => Ok s
  | _file_path :: file_paths =>
      data ← read_file fs _file_path;
      s ← scan_file data s;
      scan_files fs file_paths s
  end.

(** Lines 77-96. *)
Definition resolve_paths (fs : filesystem) (file_path : string) : result (list string) :=
  if isdir fs file_path then
    let all_files := listdir fs file_path in
    let file_paths := path_join file_path <$> filter (λ _file, endswith _file ".demo") all_files in
    match all_files with
    | [] => Err NoDemoFiles
    | _ => Ok file_paths
    end
  else if isfile fs file_path then
    let file_extension := path_suffix file_path in
    if negb (String.eqb file_extension ".demo") then Err WrongExtension
    else Ok [file_path]
  else Err PathNotFound.

Definition load_demonstration (fs : filesystem) (file_path : string)
  : result (option BP * list BI * Z) :=
  file_paths ← resolve_paths fs file_path;
  s ← scan_files fs file_paths initial_state;
  Ok (brain_params s, brain_infos s, total_expected s).

End Loader.

(** ** A small concrete protocol, for evaluating the loader on examples *)

(** A meta message carrying only [number_steps] (field 3, wire type 0): the
    empty message leaves the field at its default 0, and the two bytes
    [0x18 k] set it to [k < 128], as the protobuf wire format has it.  The
    parameter and step payloads are kept as raw bytes; the parameters built
    by [from_proto] are the payload of the parameter frame, and a decoded
    step remembers the parameters it was decoded against. *)
Definition example_ParseMeta (payload : bytes) : option Z :=
  match payload with
  | [] => Some 0%Z
  | [x18; k] => if (Byte.to_N k <? 128)%N then Some (Z.of_N (Byte.to_N k)) else None
  | _ => None
  end.

Global Instance example_protocol : Protocol bytes (bytes * bytes) := {|
  DemonstrationMetaProto := Z;
  BrainParametersProto := bytes;
  AgentInfoProto := bytes;
  number_steps := id;
  ParseMeta := example_ParseMeta;
  ParseBrainParameters := Some;
  ParseAgentInfo := Some;
  from_proto := λ brain_param_proto _, brain_param_proto;
  from_agent_proto := λ agent_info brain_params, Some (brain_params, agent_info);
|}.

(** A file as the recorder lays it out: the meta frame, padding up to byte
    33, the parameter frame, then the step frames (each payload shorter than
    128 bytes, so each length is one byte). *)
Definition frame (payload : bytes) : bytes :=
  default x00 (Byte.of_nat (length payload)) :: payload.
Definition example_file (meta params : bytes) (steps : list bytes) : bytes :=
  let head := frame meta in
  head ++ replicate (INITIAL_POS - length head) x00 ++ frame params ++ mjoin (frame <$> steps).

Definition example_two_of_three : bytes :=
  example_file [x18; x02] [xaa] [[x01]; [x02]; [x03]].


(** ** The trajectory buffer builder *)

(** [mlagents.envs.brain.BrainInfo], with the attributes [make_demo_buffer]
    reads.  Each is a list indexed by agent; [visual_observations] is indexed
    by camera first.  [ndarray] stands for a numpy array, [float] for a
    Python float: the builder only moves such values. *)
Record BrainInfo (ndarray float : Type) : Type := {
  visual_observations : list (list ndarray);
  vector_observations : list ndarray;
  rewards : list float;
  local_done : list bool;
  previous_vector_actions : list ndarray;
}.
Arguments visual_observations {ndarray float} _.
Arguments vector_observations {ndarray float} _.
Arguments rewards {ndarray float} _.
Arguments local_done {ndarray float} _.
Arguments previous_vector_actions {ndarray float} _.

(** The two attributes of [mlagents.envs.brain.BrainParameters] that the
    builder reads. *)
Class BrainParametersView (BP : Type) : Type := {
  number_visual_observations : BP → nat;
  vector_observation_space_size : BP → Z;
}.

(** What a buffer field holds. *)
Inductive value (ndarray float : Type) : Type :=
| VBool (b : bool)
| VFloat (x : float)
| VArray (a : ndarray).
Arguments VBool {ndarray float} b.
Arguments VFloat {ndarray float} x.
Arguments VArray {ndarray float} a.

(** The interface of [mlagents.trainers.buffer.Buffer] as [make_demo_buffer]
    uses it, always for the agent key 0:
    [Buffer()], [demo_buffer[0].last_brain_info = bi],
    [demo_buffer[0][key].append(v)],
    [demo_buffer.append_update_buffer(0, batch_size=None, training_length=n)]
    and [demo_buffer.reset_local_buffers()]. *)
Class BufferOps (BI V B : Type) : Type := {
  new_buffer : B;
  set_last_brain_info : BI → B → B;
  field_append : string → V → B → B;
  append_update_buffer : nat → B → result B;
  reset_local_buffers : B → B;
}.

(** [l[i]] *)
Definition index {A} (l : list A) (i : nat) : result A := of_option IndexError (l !! i).

(** A left fold whose step can fail. *)
Fixpoint foldM {A B} (f : B → A → result B) (b : B) (l : list A) : result B :=
  match l with
  | [] => Ok b
  | a :: l => b ← f b a; foldM f b l
  end.

Section Builder.
Context {ndarray float BP B : Type}.
Context `{!BrainParametersView BP} `{!BufferOps (BrainInfo ndarray float) (value ndarray float) B}.

(** Lines 31-34: [for i in range(brain_params.number_visual_observations)]. *)
Definition append_visual_obs (current_brain_info : BrainInfo ndarray float)
    (demo_buffer : B) (i : nat) : result B :=
  camera ← index (visual_observations current_brain_info) i;
  obs ← index camera 0;
  Ok (field_append ("visual_obs" +:+ pretty i) (VArray obs) demo_buffer).

(** Lines 26-47: the body of the loop after the [break] test. *)
Definition demo_step (brain_infos : list (BrainInfo ndarray float)) (brain_params : BP)
    (sequence_length : nat) (demo_buffer : B) (idx : nat) : result B :=
  current_brain_info ← index brain_infos idx;
  next_brain_info ← index brain_infos (idx + 1);
  let demo_buffer := set_last_brain_info current_brain_info demo_buffer in
  done ← index (local_done next_brain_info) 0;
  let demo_buffer := field_append "done" (VBool done) demo_buffer in
  reward ← index (rewards next_brain_info) 0;
  let demo_buffer := field_append "rewards" (VFloat reward) demo_buffer in
  demo_buffer ← foldM (append_visual_obs current_brain_info) demo_buffer
                  (seq 0 (number_visual_observations brain_params));
  demo_buffer ←
    (if (vector_observation_space_size brain_params >? 0)%Z then
       obs ← index (vector_observations current_brain_info) 0;
       Ok (field_append "vector_obs" (VArray obs) demo_buffer)
     else Ok demo_buffer);
  action ← index (previous_vector_actions next_brain_info) 0;
  let demo_buffer := field_append "actions" (VArray action) demo_buffer in
  prev_action ← index (previous_vector_actions current_brain_info) 0;
  let demo_buffer := field_append "prev_action" (VArray prev_action) demo_buffer in
  done ← index (local_done next_brain_info) 0;
  if done : bool then
    demo_buffer ← append_update_buffer sequence_length demo_buffer;
    Ok (reset_local_buffers demo_buffer)
  else Ok demo_buffer.

(** Lines 23-25: [for idx, experience in enumerate(brain_infos)] with its
    [break]; [experiences] is what the enumeration has still to yield. *)
Fixpoint demo_loop (brain_infos : list (BrainInfo ndarray float)) (brain_params : BP)
    (sequence_length : nat) (experiences : list (BrainInfo ndarray float)) (idx : nat)
    (demo_buffer : B) : result B :=
  match experiences with
  | [] => Ok demo_buffer
  | _experience :: experiences =>
      if (Z.of_nat idx >? Z.of_nat (length brain_infos) - 2)%Z then Ok demo_buffer
      else
        demo_buffer ← demo_step brain_infos brain_params sequence_length demo_buffer idx;
        demo_loop brain_infos brain_params sequence_length experiences (S idx) demo_buffer
  end.

(** Lines 18-51. *)
Definition make_demo_buffer (brain_infos : list (BrainInfo ndarray float)) (brain_params : BP)
    (sequence_length : nat) : result B :=
  demo_buffer ← demo_loop brain_infos brain_params sequence_length brain_infos 0 new_buffer;
  append_update_buffer sequence_length demo_buffer.

End Builder.

(** *** The calls the builder makes *)

(** A buffer that only records the calls made on it, in order. *)
Inductive buffer_op (BI V : Type) : Type :=
| SetLastBrainInfo (bi : BI)
| FieldAppend (key : string) (v : V)
| AppendUpdateBuffer (training_length : nat)
| ResetLocalBuffers.
Arguments SetLastBrainInfo {BI V} bi.
Arguments FieldAppend {BI V} key v.
Arguments AppendUpdateBuffer {BI V} training_length.
Arguments ResetLocalBuffers {BI V}.

Global Instance call_log (BI V : Type) : BufferOps BI V (list (buffer_op BI V)) := {|
  new_buffer := [];
  set_last_brain_info := λ bi log, log ++ [SetLastBrainInfo bi];
  field_append := λ key v log, log ++ [FieldAppend key v];
  append_update_buffer := λ n log, Ok (log ++ [AppendUpdateBuffer n]);
  reset_local_buffers := λ log, log ++ [ResetLocalBuffers];
|}.

(** Replaying recorded calls on a buffer. *)
Definition apply_op {BI V B} `{!BufferOps BI V B} (b : B) (op : buffer_op BI V) : result B :=
  match op with
  | SetLastBrainInfo bi => Ok (set_last_brain_info bi b)
  | FieldAppend key v => Ok (field_append key v b)
  | AppendUpdateBuffer n => append_update_buffer n b
  | ResetLocalBuffers => Ok (reset_local_buffers b)
  end.
Definition replay {BI V B} `{!BufferOps BI V B} (log : list (buffer_op BI V)) (b : B)
  : result B := foldM apply_op b log.
Arguments replay : simpl never.

(** The values appended to the field [key], in order. *)
Definition appended {BI V} (key : string) (log : list (buffer_op BI V)) : list V :=
  omap (λ op, match op with
              | FieldAppend k v => if decide (k = key) then Some v else None
              | _ => None
              end) log.

(** The calls other than field appends. *)
Definition is_control {BI V} (op : buffer_op BI V) : bool :=
  match op with FieldAppend _ _ => false | _ => true end.
Definition schedule {BI V} (log : list (buffer_op BI V)) : list (buffer_op BI V) :=
  filter (λ op, is_control op) log.

(** *** The training buffer *)

(** [l] cut into pieces of [n] entries, the last one possibly shorter. *)
Fixpoint chunks_go {A} (fuel n : nat) (l : list A) : list (list A) :=
  match fuel, l with
  | S fuel, _ :: _ => take n l :: chunks_go fuel n (drop n l)
  | _, _ => []
  end.
Definition chunks {A} (n : nat) (l : list A) : list (list A) := chunks_go (length l) n l.

(** Modelled from the spec: the class [Buffer] of
    [mlagents/trainers/buffer.py] is not under src/.  Section 3 and 4.4 of
    the specification: the buffer maps a field name to the sequence
    accumulated for it; a flush cuts what every field has accumulated since
    the last flush into chunks of [sequence_length] entries (the last chunk
    may be shorter, nothing is padded) and adds the chunks to the output of
    that field; a reset empties every accumulator; the output of a field is
    the concatenation of the chunks of all flushes. *)
Record Buffer (BI V : Type) : Type := {
  local_buffers : gmap string (list V);
  update_buffer : gmap string (list (list V));
  last_brain_info : option BI;
}.
Arguments local_buffers {BI V} _.
Arguments update_buffer {BI V} _.
Arguments last_brain_info {BI V} _.

Definition flush_field {V} (n : nat) (out : option (list (list V))) (acc : option (list V))
  : option (list (list V)) :=
  match acc with
  | Some l => Some (default [] out ++ chunks n l)
  | None => out
  end.

Global Instance spec_buffer (BI V : Type) : BufferOps BI V (Buffer BI V) := {|
  new_buffer := {| local_buffers := ∅; update_buffer := ∅; last_brain_info := None |};
  set_last_brain_info := λ bi b,
    {| local_buffers := local_buffers b; update_buffer := update_buffer b;
       last_brain_info := Some bi |};
  field_append := λ key v b,
    {| local_buffers := <[key := default [] (local_buffers b !! key) ++ [v]]> (local_buffers b);
       update_buffer := update_buffer b; last_brain_info := last_brain_info b |};
  append_update_buffer := λ n b,
    Ok {| local_buffers := local_buffers b;
          update_buffer := merge (flush_field n) (update_buffer b) (local_buffers b);
          last_brain_info := last_brain_info b |};
  reset_local_buffers := λ b,
    {| local_buffers := (λ _, []) <$> local_buffers b; update_buffer := update_buffer b;
       last_brain_info := last_brain_info b |};
|}.

(** The accumulated sequence and the output chunks of a field. *)
Definition accumulated {BI V} (b : Buffer BI V) (key : string) : list V :=
  default [] (local_buffers b !! key).
Definition output {BI V} (b : Buffer BI V) (key : string) : list (list V) :=
  default [] (update_buffer b !! key).

(** *** Example records *)

Global Instance example_view : BrainParametersView (nat * Z) := {|
  number_visual_observations := fst;
  vector_observation_space_size := snd;
|}.

(** A single-agent record with two cameras: the step number [t] tags every array. *)
Definition example_info (t : nat) (reward : Z) (done : bool) : BrainInfo nat Z := {|
  visual_observations := [[100 + t]; [200 + t]];
  vector_observations := [300 + t];
  rewards := [reward];
  local_done := [done];
  previous_vector_actions := [400 + t];
|}.

Definition example_episode : list (BrainInfo nat Z) :=
  [example_info 0 0%Z false; example_info 1 1%Z false; example_info 2 5%Z true;
   example_info 3 0%Z false].


(** * Properties *)

(** ** The varint decoder and the frame reader *)

Lemma bind_Ok {A B} (m : result A) (f : A → result B) (b : B) :
  m ≫= f = Ok b ↔ ∃ a, m = Ok a ∧ f a = Ok b.
Proof.
  destruct m as [a|e]; simpl.
  - split; [eauto | intros (a' & [= <-] & ?); done].
  - split; [done | intros (a' & ? & ?); done].
Qed.

Lemma of_option_Ok {A} (e : error) (o : option A) (a : A) :
  of_option e o = Ok a ↔ o = Some a.
Proof. destruct o; simpl; split; congruence. Qed.

Lemma decode_varint_loop_bounds rest : ∀ acc shift pos v q,
  decode_varint_loop rest acc shift pos = Ok (v, q) → pos < q ≤ pos + length rest.
Proof.
  induction rest as [|b rest IH]; intros acc shift pos v q; simpl; [done|].
  destruct (N.land (Byte.to_N b) 128 =? 0)%N.
  - intros [= _ <-]. lia.
  - destruct (64 <=? shift + 7)%N; [done|].
    intros Hrec. apply IH in Hrec. lia.
Qed.

(** A varint takes at least one byte and lies inside the buffer. *)
Lemma DecodeVarint32_bounds data pos v q :
  _DecodeVarint32 data pos = Ok (v, q) → pos < q ≤ length data.
Proof.
  unfold _DecodeVarint32. intros Hdec.
  apply decode_varint_loop_bounds in Hdec. rewrite length_drop in Hdec. lia.
Qed.

Definition continues (b : byte) : Prop := N.land (Byte.to_N b) 128 ≠ 0%N.

Lemma decode_varint_loop_chain rest : ∀ acc k pos,
  Forall continues rest → k < 10 →
  decode_varint_loop rest acc (7 * N.of_nat k) pos =
    Err (if decide (k + length rest < 10) then TruncatedVarint else InvalidFormat).
Proof.
  induction rest as [|b rest IH]; intros acc k pos Hall Hk; simpl.
  - rewrite decide_True by lia. done.
  - apply Forall_cons in Hall as [Hb Hall]. unfold continues in Hb.
    apply N.eqb_neq in Hb. rewrite Hb.
    destruct (64 <=? 7 * N.of_nat k + 7)%N eqn:Hlim.
    + apply N.leb_le in Hlim. rewrite decide_False by lia. done.
    + apply N.leb_gt in Hlim.
      replace (7 * N.of_nat k + 7)%N with (7 * N.of_nat (S k))%N by lia.
      rewrite IH by (done || lia).
      destruct (decide (S k + length rest < 10)), (decide (k + S (length rest) < 10));
        done || lia.
Qed.

Lemma decode_varint_loop_error rest : ∀ acc shift pos e,
  decode_varint_loop rest acc shift pos = Err e → e = TruncatedVarint ∨ e = InvalidFormat.
Proof.
  induction rest as [|b rest IH]; intros acc shift pos e; simpl.
  - intros [= <-]. by left.
  - destruct (N.land (Byte.to_N b) 128 =? 0)%N; [done|].
    destruct (64 <=? shift + 7)%N; [intros [= <-]; by right | apply IH].
Qed.

(** ** The scanner *)

Section LoaderProofs.
Context {BP BI : Type} `{P : Protocol BP BI}.

(** *** The loop model never runs out of fuel *)

Definition turns_bound (data : bytes) (s : scan_state) : nat :=
  match obs_decoded s with
  | 0 => S (length data - INITIAL_POS)
  | _ => length data - pos s
  end.

Lemma scan_step_error data s e :
  scan_step data s = Err e → e = TruncatedVarint ∨ e = InvalidFormat.
Proof.
  unfold scan_step. destruct (_DecodeVarint32 data (pos s)) as [[len body]|e'] eqn:Hdec; simpl.
  - destruct (obs_decoded s) as [|[|n]].
    + destruct (ParseMeta _); simpl; [done | intros [= <-]; by right].
    + destruct (ParseBrainParameters _); simpl; [done | intros [= <-]; by right].
    + destruct (ParseAgentInfo _) as [a|]; simpl; [|intros [= <-]; by right].
      destruct (brain_params s) as [bp|]; simpl.
      * destruct (from_agent_proto a bp); simpl; [|intros [= <-]; by right].
        by destruct (_ =? _)%Z.
      * destruct (from_proto _ a) as [bp|]; simpl; [|intros [= <-]; by right].
        destruct (from_agent_proto a bp); simpl; [|intros [= <-]; by right].
        by destruct (_ =? _)%Z.
  - intros [= <-]. by apply decode_varint_loop_error in Hdec.
Qed.

Lemma scan_step_progress data s s' :
  pos s < length data → scan_step data s = Ok (Next s') →
  turns_bound data s' < turns_bound data s.
Proof.
  intros Hpos. unfold scan_step.
  destruct (_DecodeVarint32 data (pos s)) as [[len body]|e'] eqn:Hdec; simpl; [|done].
  apply DecodeVarint32_bounds in Hdec. unfold turns_bound.
  destruct (obs_decoded s) as [|[|n]].
  - destruct (ParseMeta _); simpl; [|done]. intros [= <-]. simpl. lia.
  - destruct (ParseBrainParameters _); simpl; [|done]. intros [= <-]. simpl. lia.
  - destruct (ParseAgentInfo _) as [a|]; simpl; [|done].
    destruct (brain_params s) as [bp|]; simpl.
    + destruct (from_agent_proto a bp); simpl; [|done].
      destruct (_ =? _)%Z; [done|]. intros [= <-]. simpl. lia.
    + destruct (from_proto _ a) as [bp|]; simpl; [|done].
      destruct (from_agent_proto a bp); simpl; [|done].
      destruct (_ =? _)%Z; [done|]. intros [= <-]. simpl. lia.
Qed.

Lemma scan_loop_fuel fuel : ∀ data s,
  turns_bound data s ≤ fuel → scan_loop fuel data s ≠ Err OutOfFuel.
Proof.
  induction fuel as [|fuel IH]; intros data s Hbound.
  - simpl. destruct (pos s <? length data) eqn:Hlt; [|done].
    apply Nat.ltb_lt in Hlt. unfold turns_bound in Hbound.
    destruct (obs_decoded s); lia.
  - simpl. destruct (pos s <? length data) eqn:Hlt; [|done].
    apply Nat.ltb_lt in Hlt.
    destruct (scan_step data s) as [[s'|s']|e] eqn:Hstep; simpl.
    + apply IH. apply scan_step_progress in Hstep; [lia | done].
    + done.
    + apply scan_step_error in Hstep as [->| ->]; done.
Qed.

(** [scan_file] always returns: a state, or an error of a decoder. *)
Lemma scan_file_total data s : scan_file data s ≠ Err OutOfFuel.
Proof. apply scan_loop_fuel. unfold turns_bound. simpl. lia. Qed.

(** *** The layout of a demonstration file *)

(** [step_frames data pos agents last]: from the cursor [pos] on, [data]
    holds one frame per element of [agents], each starting inside the
    buffer and decoding to that element; [last] is where the body of the
    last of them starts.  Nothing is said of what follows it. *)
Inductive step_frames (data : bytes) : nat → list AgentInfoProto → nat → Prop :=
| step_frames_last pos frame_len body agent_info :
    pos < length data →
    _DecodeVarint32 data pos = Ok (frame_len, body) →
    ParseAgentInfo (slice data body (body + frame_len)) = Some agent_info →
    step_frames data pos [agent_info] body
| step_frames_more pos frame_len body agent_info agents last :
    pos < length data →
    _DecodeVarint32 data pos = Ok (frame_len, body) →
    ParseAgentInfo (slice data body (body + frame_len)) = Some agent_info →
    step_frames data (body + frame_len) agents last →
    step_frames data pos (agent_info :: agents) last.

(** A file holding a meta frame at byte 0, a parameter frame at byte 33 and
    then at least [length agents] step frames. *)
Definition demo_layout (data : bytes) (meta : DemonstrationMetaProto)
    (params : BrainParametersProto) (agents : list AgentInfoProto) (last : nat) : Prop :=
  ∃ len0 body0 len1 body1,
    _DecodeVarint32 data 0 = Ok (len0, body0) ∧
    ParseMeta (slice data body0 (body0 + len0)) = Some meta ∧
    INITIAL_POS < length data ∧
    _DecodeVarint32 data INITIAL_POS = Ok (len1, body1) ∧
    ParseBrainParameters (slice data body1 (body1 + len1)) = Some params ∧
    step_frames data (body1 + len1) agents last.

(** The parameters in force while a file is scanned: those already held,
    or else the ones built from this file's parameter frame and its first
    step frame (lines 120-123). *)
Definition params_in_force (held : option BP) (params : BrainParametersProto)
    (agents : list AgentInfoProto) : option BP :=
  match held with
  | Some brain_params => Some brain_params
  | None => head agents ≫= from_proto (Some params)
  end.

Lemma step_frames_nonempty data pos agents last :
  step_frames data pos agents last → agents ≠ [].
Proof. by destruct 1. Qed.

Lemma scan_step_agent data s frame_len body agent_info bp brain_info :
  2 ≤ obs_decoded s →
  _DecodeVarint32 data (pos s) = Ok (frame_len, body) →
  ParseAgentInfo (slice data body (body + frame_len)) = Some agent_info →
  match brain_params s with
  | Some held => Some held
  | None => from_proto (brain_param_proto s) agent_info
  end = Some bp →
  from_agent_proto agent_info bp = Some brain_info →
  scan_step data s =
    Ok (if (Z.of_nat (length (brain_infos s ++ [brain_info])) =? total_expected s)%Z
        then Break (ScanState (Some bp) (brain_param_proto s) (brain_infos s ++ [brain_info])
                      (total_expected s) body (obs_decoded s))
        else Next (ScanState (Some bp) (brain_param_proto s) (brain_infos s ++ [brain_info])
                     (total_expected s) (body + frame_len) (S (obs_decoded s)))).
Proof.
  intros Hobs Hdec Hparse Hbp Hinfo. unfold scan_step. rewrite Hdec. simpl.
  destruct (obs_decoded s) as [|[|n]] eqn:Hn; [lia | lia |].
  rewrite Hparse. simpl.
  destruct (brain_params s) as [held|]; simplify_eq; simpl.
  - rewrite Hinfo. simpl. by destruct (_ =? _)%Z.
  - rewrite Hbp. simpl. rewrite Hinfo. simpl. by destruct (_ =? _)%Z.
Qed.

(** The step frames of a file: the scanner appends one record per frame
    and breaks at the last one, leaving the cursor at its body. *)
Lemma scan_loop_steps data p agents last :
  step_frames data p agents last →
  ∀ fuel s bp infos,
    pos s = p → 2 ≤ obs_decoded s →
    match brain_params s with
    | Some held => Some held
    | None => head agents ≫= from_proto (brain_param_proto s)
    end = Some bp →
    Forall2 (λ a i, from_agent_proto a bp = Some i) agents infos →
    total_expected s = Z.of_nat (length (brain_infos s) + length agents) →
    length data - p ≤ fuel →
    scan_loop fuel data s =
      Ok (ScanState (Some bp) (brain_param_proto s) (brain_infos s ++ infos)
            (total_expected s) last (obs_decoded s + length agents - 1)).
Proof.
  induction 1 as [pos0 frame_len body a Hin Hdec Hparse
                 |pos0 frame_len body a agents last Hin Hdec Hparse Hrest IH];
    intros fuel s bp infos Hpos Hobs Hbp Hall Htotal Hfuel; subst pos0.
  - apply Forall2_cons_inv_l in Hall as (i & infos' & Hi & Hnil & ->).
    apply Forall2_nil_inv_l in Hnil as ->.
    destruct fuel as [|fuel]; [lia|]. simpl.
    rewrite (proj2 (Nat.ltb_lt _ _) Hin).
    rewrite (scan_step_agent data s frame_len body a bp i) by done.
    rewrite (proj2 (Z.eqb_eq _ _)) by (rewrite Htotal, length_app; simpl; lia).
    simpl. do 2 f_equal. lia.
  - apply Forall2_cons_inv_l in Hall as (i & infos' & Hi & Hall & ->).
    pose proof (step_frames_nonempty _ _ _ _ Hrest) as Hne.
    pose proof (DecodeVarint32_bounds _ _ _ _ Hdec) as Hb.
    destruct fuel as [|fuel]; [lia|]. simpl.
    rewrite (proj2 (Nat.ltb_lt _ _) Hin).
    rewrite (scan_step_agent data s frame_len body a bp i) by done.
    rewrite (proj2 (Z.eqb_neq _ _)).
    2:{ rewrite Htotal, length_app. simpl. destruct agents; [done | simpl; lia]. }
    simpl. rewrite (IH fuel _ bp infos'); simpl; try done.
    + rewrite <- (assoc_L (++)). simpl. do 2 f_equal. lia.
    + lia.
    + rewrite Htotal, length_app. simpl. lia.
    + lia.
Qed.

Lemma scan_loop_turn fuel data s s' :
  pos s < length data → scan_step data s = Ok (Next s') →
  scan_loop (S fuel) data s = scan_loop fuel data s'.
Proof.
  intros Hin Hstep. simpl. rewrite (proj2 (Nat.ltb_lt _ _) Hin), Hstep. done.
Qed.

(** One well laid out file, scanned from a state in which every record
    expected so far has been read. *)
Lemma scan_file_layout data meta params agents last s bp infos :
  demo_layout data meta params agents last →
  number_steps meta = Z.of_nat (length agents) →
  total_expected s = Z.of_nat (length (brain_infos s)) →
  params_in_force (brain_params s) params agents = Some bp →
  Forall2 (λ a i, from_agent_proto a bp = Some i) agents infos →
  scan_file data s =
    Ok (ScanState (Some bp) (Some params) (brain_infos s ++ infos)
          (total_expected s + Z.of_nat (length agents)) last (S (length agents))).
Proof.
  intros (len0 & body0 & len1 & body1 & Hdec0 & Hmeta & Hlen & Hdec1 & Hparams & Hsteps)
    Hcount Htotal Hbp Hall.
  unfold INITIAL_POS in *. unfold scan_file.
  pose proof (DecodeVarint32_bounds _ _ _ _ Hdec1) as Hb1.
  replace (S (length data)) with (S (S (length data - 1))) by lia.
  rewrite (scan_loop_turn _ data _
             (ScanState (brain_params s) (brain_param_proto s) (brain_infos s)
                (total_expected s + number_steps meta) 33 1)).
  2: { simpl. lia. }
  2: { unfold scan_step. simpl. rewrite Hdec0. simpl. rewrite Hmeta. done. }
  rewrite (scan_loop_turn _ data _
             (ScanState (brain_params s) (Some params) (brain_infos s)
                (total_expected s + number_steps meta) (body1 + len1) 2)).
  2: { simpl. lia. }
  2: { unfold scan_step. simpl. rewrite Hdec1. simpl. rewrite Hparams. done. }
  rewrite (scan_loop_steps data (body1 + len1) agents last Hsteps _ _ bp infos).
  - simpl. do 2 f_equal. lia.
  - done.
  - simpl. lia.
  - simpl. unfold params_in_force in Hbp. by destruct (brain_params s).
  - done.
  - simpl. rewrite Hcount, Htotal. lia.
  - lia.
Qed.

(** *** Claims about the scanner *)

(** C1 (as amended: K >= 1).  A file whose meta record declares
    [expected_step_count = K], with [K >= 1], and whose buffer holds at
    least [K] step frames: the scanner returns exactly the [K] records of
    the first [K] step frames and stops there, the cursor left at the body
    of the [K]-th step frame, whatever follows it in the buffer; so does
    [load_demonstration] on that single file. *)
Theorem scanner_stops_at_expected_count data K meta params agents last bp infos :
  1 ≤ K →
  demo_layout data meta params agents last →
  length agents = K →
  number_steps meta = Z.of_nat K →
  head agents ≫= from_proto (Some params) = Some bp →
  Forall2 (λ a i, from_agent_proto a bp = Some i) agents infos →
  scan_file data initial_state =
    Ok (ScanState (Some bp) (Some params) infos (Z.of_nat K) last (S K))
  ∧ length infos = K
  ∧ ∀ fs file_path,
      fs file_path = Some (RegularFile data) → path_suffix file_path = ".demo" →
      load_demonstration fs file_path = Ok (Some bp, infos, Z.of_nat K).
Proof.
  intros HK Hlayout Hlen Hcount Hbp Hall.
  assert (Hscan : scan_file data initial_state =
    Ok (ScanState (Some bp) (Some params) infos (Z.of_nat K) last (S K))).
  { rewrite (scan_file_layout data meta params agents last initial_state bp infos);
      subst K; simpl; done. }
  split; [done|]. split; [by rewrite <- (Forall2_length _ _ _ Hall)|].
  intros fs file_path Hfile Hsuffix.
  unfold load_demonstration, resolve_paths, isdir, isfile.
  rewrite Hfile, Hsuffix. simpl. unfold read_file. rewrite Hfile. simpl.
  rewrite Hscan. done.
Qed.

(** C5 (as amended).  In a turn of the loop that decodes a frame of
    declared length [frame_len] whose body starts at [body]: for the first
    frame of a file (the meta record) the cursor is set to byte 33, whatever
    [frame_len] is; for the parameter frame, and for every step frame that
    does not bring the number of records to the expected count, the cursor
    is advanced to [body + frame_len]; for the step frame that brings the
    number of records to the expected count the loop breaks and the cursor
    is left at [body]. *)
Theorem first_frame_forces_cursor_33 data s frame_len body :
  _DecodeVarint32 data (pos s) = Ok (frame_len, body) →
  (∀ meta,
     obs_decoded s = 0 →
     ParseMeta (slice data body (body + frame_len)) = Some meta →
     scan_step data s =
       Ok (Next (ScanState (brain_params s) (brain_param_proto s) (brain_infos s)
                   (total_expected s + number_steps meta) 33 1)))
  ∧ (∀ params,
       obs_decoded s = 1 →
       ParseBrainParameters (slice data body (body + frame_len)) = Some params →
       scan_step data s =
         Ok (Next (ScanState (brain_params s) (Some params) (brain_infos s)
                     (total_expected s) (body + frame_len) 2)))
  ∧ (∀ agent_info bp brain_info,
       2 ≤ obs_decoded s →
       ParseAgentInfo (slice data body (body + frame_len)) = Some agent_info →
       match brain_params s with
       | Some held => Some held
       | None => from_proto (brain_param_proto s) agent_info
       end = Some bp →
       from_agent_proto agent_info bp = Some brain_info →
       scan_step data s =
         Ok (if (Z.of_nat (length (brain_infos s ++ [brain_info])) =? total_expected s)%Z
             then Break (ScanState (Some bp) (brain_param_proto s)
                           (brain_infos s ++ [brain_info]) (total_expected s)
                           body (obs_decoded s))
             else Next (ScanState (Some bp) (brain_param_proto s)
                          (brain_infos s ++ [brain_info]) (total_expected s)
                          (body + frame_len) (S (obs_decoded s))))).
Proof.
  intros Hdec. split_and!.
  - intros meta Hobs Hmeta. unfold scan_step. rewrite Hdec, Hobs. simpl.
    rewrite Hmeta. done.
  - intros params Hobs Hparams. unfold scan_step. rewrite Hdec, Hobs. simpl.
    rewrite Hparams. done.
  - intros agent_info bp brain_info Hobs Hagent Hbp Hinfo.
    exact (scan_step_agent data s frame_len body agent_info bp brain_info
             Hobs Hdec Hagent Hbp Hinfo).
Qed.

(** C8 (as amended).  A file of zero bytes raises nothing: its scan leaves
    the parameter record, the records and the expected count as they were,
    and [load_demonstration] on such a file returns no parameter record,
    no step record and the count 0. *)
Theorem empty_file_scans_to_nothing fs file_path :
  fs file_path = Some (RegularFile []) →
  path_suffix file_path = ".demo" →
  (∀ s, scan_file [] s =
          Ok (ScanState (brain_params s) (brain_param_proto s) (brain_infos s)
                (total_expected s) 0 0))
  ∧ load_demonstration fs file_path = Ok (None, [], 0%Z).
Proof.
  intros Hfile Hsuffix. split; [done|].
  unfold load_demonstration, resolve_paths, isdir, isfile.
  rewrite Hfile, Hsuffix. simpl. unfold read_file. rewrite Hfile. done.
Qed.

(** *** The aggregator *)

(** A file together with what its frames decode to. *)
Record demo_file : Type := DemoFile {
  file_data : bytes;
  file_meta : DemonstrationMetaProto;
  file_params : BrainParametersProto;
  file_agents : list AgentInfoProto;
  file_last : nat;
}.

(** A valid file: laid out as [demo_layout] says, and declaring as many
    steps as the step frames listed for it (at least one). *)
Definition valid_demo_file (f : demo_file) : Prop :=
  demo_layout (file_data f) (file_meta f) (file_params f) (file_agents f) (file_last f) ∧
  number_steps (file_meta f) = Z.of_nat (length (file_agents f)).

(** A stepless file: it declares no step and holds no step frame; the
    buffer ends within the 33 bytes kept for the meta record, or with the
    parameter frame. *)
Definition stepless_demo_file (f : demo_file) : Prop :=
  file_agents f = [] ∧
  number_steps (file_meta f) = 0%Z ∧
  ∃ len0 body0,
    _DecodeVarint32 (file_data f) 0 = Ok (len0, body0) ∧
    ParseMeta (slice (file_data f) body0 (body0 + len0)) = Some (file_meta f) ∧
    (length (file_data f) ≤ INITIAL_POS ∨
     ∃ len1 body1,
       _DecodeVarint32 (file_data f) INITIAL_POS = Ok (len1, body1) ∧
       ParseBrainParameters (slice (file_data f) body1 (body1 + len1)) = Some (file_params f) ∧
       length (file_data f) ≤ body1 + len1).

Definition stored_at (fs : filesystem) (path : string) (f : demo_file) : Prop :=
  fs path = Some (RegularFile (file_data f)) ∧ (valid_demo_file f ∨ stepless_demo_file f).

(** The sum of the files' expected step counts. *)
Definition expected_sum (files : list demo_file) : Z :=
  foldr (λ f acc, (number_steps (file_meta f) + acc)%Z) 0%Z files.

Lemma valid_demo_file_agents f : valid_demo_file f → file_agents f ≠ [].
Proof. intros [(?&?&?&?&?&?&?&?&?&Hsteps) _]. by eapply step_frames_nonempty. Qed.

Lemma scan_loop_at_end fuel data s : length data ≤ pos s → scan_loop fuel data s = Ok s.
Proof. intros Hend. destruct fuel; simpl; by rewrite (proj2 (Nat.ltb_ge _ _) Hend). Qed.

(** A stepless file leaves the parameters, the records and the expected
    count as they were. *)
Lemma scan_file_stepless f s :
  stepless_demo_file f →
  ∃ s', scan_file (file_data f) s = Ok s' ∧
        brain_params s' = brain_params s ∧
        brain_infos s' = brain_infos s ∧
        total_expected s' = total_expected s.
Proof.
  intros (_ & Hzero & len0 & body0 & Hdec0 & Hmeta & Hrest).
  pose proof (DecodeVarint32_bounds _ _ _ _ Hdec0) as Hb0.
  unfold scan_file.
  set (s0 := ScanState (brain_params s) (brain_param_proto s) (brain_infos s)
               (total_expected s) 0 0).
  set (s1 := ScanState (brain_params s) (brain_param_proto s) (brain_infos s)
               (total_expected s) INITIAL_POS 1).
  assert (Hfirst : scan_step (file_data f) s0 = Ok (Next s1)).
  { unfold scan_step, s0, s1. simpl. rewrite Hdec0. simpl. rewrite Hmeta. simpl.
    rewrite Hzero, Z.add_0_r. done. }
  assert (Hin0 : pos s0 < length (file_data f)) by (simpl; lia).
  destruct Hrest as [Hshort|(len1 & body1 & Hdec1 & Hparams & Hend)].
  - rewrite (scan_loop_turn _ _ _ _ Hin0 Hfirst).
    rewrite scan_loop_at_end by done. by exists s1.
  - pose proof (DecodeVarint32_bounds _ _ _ _ Hdec1) as Hb1.
    set (s2 := ScanState (brain_params s) (Some (file_params f)) (brain_infos s)
                 (total_expected s) (body1 + len1) 2).
    assert (Hin1 : pos s1 < length (file_data f)) by (simpl; lia).
    assert (Hsecond : scan_step (file_data f) s1 = Ok (Next s2)).
    { unfold scan_step, s1, s2. simpl. rewrite Hdec1. simpl. rewrite Hparams. done. }
    replace (S (length (file_data f))) with (S (S (length (file_data f) - 1))) by lia.
    rewrite (scan_loop_turn _ _ _ _ Hin0 Hfirst), (scan_loop_turn _ _ _ _ Hin1 Hsecond).
    rewrite scan_loop_at_end by done. by exists s2.
Qed.

Lemma scan_files_valid fs file_paths files :
  Forall2 (stored_at fs) file_paths files →
  ∀ s bp infos,
    brain_params s = Some bp →
    total_expected s = Z.of_nat (length (brain_infos s)) →
    Forall2 (λ a i, from_agent_proto a bp = Some i) (mjoin (file_agents <$> files)) infos →
    ∃ s', scan_files fs file_paths s = Ok s' ∧
          brain_params s' = Some bp ∧
          brain_infos s' = brain_infos s ++ infos ∧
          total_expected s' = (total_expected s + expected_sum files)%Z.
Proof.
  induction 1 as [|path f file_paths files [Hfile [[Hlayout Hcount]|Hstepless]] _ IH];
    intros s bp infos Hbp Htotal Hall.
  - apply Forall2_nil_inv_l in Hall as ->. exists s. simpl.
    rewrite (right_id_L [] (++)). split_and!; [done | done | done | lia].
  - simpl in Hall. apply Forall2_app_inv_l in Hall as (infos1 & infos2 & Hall1 & Hall2 & ->).
    simpl. unfold read_file. rewrite Hfile. simpl.
    rewrite (scan_file_layout _ _ _ _ _ s bp infos1 Hlayout Hcount Htotal); [|by rewrite Hbp|done].
    simpl.
    edestruct (IH (ScanState (Some bp) (Some (file_params f)) (brain_infos s ++ infos1)
                     (total_expected s + Z.of_nat (length (file_agents f)))
                     (file_last f) (S (length (file_agents f)))) bp infos2)
      as (s' & Hscan & Hbp' & Hinfos' & Htotal'); simpl; [done | | done |].
    { rewrite length_app, Htotal, <- (Forall2_length _ _ _ Hall1). lia. }
    exists s'. simpl in *. split_and!; [done | done | |].
    + by rewrite Hinfos', (assoc_L (++)).
    + rewrite Htotal', Hcount. lia.
  - destruct (scan_file_stepless f s Hstepless) as (s1 & Hscan1 & Hbp1 & Hinfos1 & Htotal1).
    destruct Hstepless as (Hagents & Hzero & _).
    simpl in Hall. rewrite Hagents in Hall. simpl in Hall.
    simpl. unfold read_file. rewrite Hfile. simpl. rewrite Hscan1. simpl.
    destruct (IH s1 bp infos) as (s' & Hscan & Hbp' & Hinfos' & Htotal').
    + by rewrite Hbp1.
    + by rewrite Htotal1, Hinfos1.
    + done.
    + exists s'. split_and!; [done | done | by rewrite Hinfos', Hinfos1 |].
      rewrite Htotal', Htotal1, Hzero. lia.
Qed.

(** C6 (as amended).  A directory whose [.demo] entries, in listing order,
    are a valid file declaring at least one step followed by files each of
    which is valid or stepless: the returned count is the sum of the files'
    expected step counts; the returned records are those of the files' step
    frames, file after file in listing order, every one decoded against the
    parameters of the first file; and the returned parameters are the ones
    built from the first file's parameter frame and its first step frame.
    The parameter frames of the later files are decoded and not used. *)
Theorem aggregate_valid_files fs file_path all_files first files bp infos :
  fs file_path = Some (Directory all_files) →
  Forall2 (stored_at fs)
    (path_join file_path <$> filter (λ _file, endswith _file ".demo") all_files)
    (first :: files) →
  valid_demo_file first →
  head (file_agents first) ≫= from_proto (Some (file_params first)) = Some bp →
  Forall2 (λ a i, from_agent_proto a bp = Some i)
    (mjoin (file_agents <$> first :: files)) infos →
  load_demonstration fs file_path = Ok (Some bp, infos, expected_sum (first :: files)).
Proof.
  intros Hdir Hfiles [Hlayout Hcount] Hbp Hall.
  unfold load_demonstration, resolve_paths, isdir, listdir. rewrite Hdir.
  destruct all_files as [|entry all_files]; [by apply Forall2_nil_inv_l in Hfiles|].
  set (paths := path_join file_path <$> _) in *. simpl.
  destruct paths as [|path paths]; [by apply Forall2_nil_inv_l in Hfiles|].
  apply Forall2_cons in Hfiles as [[Hfile _] Hfiles].
  simpl in Hall. apply Forall2_app_inv_l in Hall as (infos1 & infos2 & Hall1 & Hall2 & ->).
  simpl. unfold read_file. rewrite Hfile. simpl.
  rewrite (scan_file_layout _ _ _ _ _ initial_state bp infos1 Hlayout Hcount); [|done..].
  simpl.
  edestruct (scan_files_valid fs paths files Hfiles
               (ScanState (Some bp) (Some (file_params first)) infos1
                  (Z.of_nat (length (file_agents first)))
                  (file_last first) (S (length (file_agents first)))) bp infos2)
    as (s' & Hscan & Hbp' & Hinfos' & Htotal'); simpl; [done | | done |].
  { by rewrite <- (Forall2_length _ _ _ Hall1). }
  rewrite Z.add_0_l, Hscan. simpl in *. rewrite Hbp', Hinfos', Htotal', Hcount. done.
Qed.

(** *** No step record, no parameter record *)

Definition params_only_with_records (s : scan_state) : Prop :=
  brain_infos s = [] → brain_params s = None.

Lemma scan_step_params_only data s c :
  params_only_with_records s → scan_step data s = Ok c →
  params_only_with_records (match c with Next s' | Break s' => s' end).
Proof.
  unfold params_only_with_records, scan_step. intros Hinv.
  destruct (_DecodeVarint32 data (pos s)) as [[len body]|e]; simpl; [|done].
  destruct (obs_decoded s) as [|[|n]].
  - destruct (ParseMeta _); simpl; [|done]. by intros [= <-].
  - destruct (ParseBrainParameters _); simpl; [|done]. by intros [= <-].
  - destruct (ParseAgentInfo _) as [a|]; simpl; [|done].
    destruct (match brain_params s with Some _ => _ | None => _ end) as [bp|]; simpl; [|done].
    destruct (from_agent_proto a bp); simpl; [|done].
    destruct (_ =? _)%Z; intros [= <-]; simpl; by destruct (brain_infos s).
Qed.

Lemma scan_loop_params_only fuel : ∀ data s s',
  params_only_with_records s → scan_loop fuel data s = Ok s' →
  params_only_with_records s'.
Proof.
  induction fuel as [|fuel IH]; intros data s s' Hinv; simpl;
    destruct (pos s <? length data); try done; try by intros [= <-].
  destruct (scan_step data s) as [c|e] eqn:Hstep; simpl; [|done].
  apply scan_step_params_only in Hstep; [|done].
  destruct c as [s1|s1]; [by apply IH | by intros [= <-]].
Qed.

Lemma scan_files_params_only fs file_paths : ∀ s s',
  params_only_with_records s → scan_files fs file_paths s = Ok s' →
  params_only_with_records s'.
Proof.
  induction file_paths as [|path file_paths IH]; intros s s' Hinv; simpl.
  - by intros [= <-].
  - destruct (read_file fs path) as [data|e]; simpl; [|done].
    destruct (scan_file data s) as [s1|e] eqn:Hscan; simpl; [|done].
    apply IH. by apply scan_loop_params_only in Hscan.
Qed.

(** C10.  A non-empty directory none of whose entries ends in [.demo]:
    [load_demonstration] raises nothing and returns no parameter record,
    no step record and the count 0.  And whatever the path, when the
    returned list of step records is empty, so that no step frame was
    decoded, the returned parameter record is [None]. *)
Theorem directory_without_demo_returns_none fs file_path :
  (∀ all_files,
     fs file_path = Some (Directory all_files) →
     all_files ≠ [] →
     Forall (λ _file, endswith _file ".demo" = false) all_files →
     load_demonstration fs file_path = Ok (None, [], 0%Z))
  ∧ (∀ brain_params total_expected,
       load_demonstration fs file_path = Ok (brain_params, [], total_expected) →
       brain_params = None).
Proof.
  split.
  - intros all_files Hdir Hne Hall.
    unfold load_demonstration, resolve_paths, isdir, listdir. rewrite Hdir.
    assert (Hfilter : filter (λ _file, endswith _file ".demo") all_files = []).
    { clear Hdir Hne. induction Hall as [|entry l Hentry _ IH]; [done|].
      rewrite filter_cons_False; [done|]. rewrite Hentry. simpl. tauto. }
    rewrite Hfilter. by destruct all_files.
  - intros bp total. unfold load_demonstration.
    destruct (resolve_paths fs file_path) as [file_paths|e]; simpl; [|done].
    destruct (scan_files fs file_paths initial_state) as [s|e] eqn:Hscan; simpl; [|done].
    apply scan_files_params_only in Hscan; [|done].
    intros [= <- Hinfos _]. by apply Hscan.
Qed.

End LoaderProofs.

(** ** The frame reader on truncated input *)

(** C9 (as amended).  When the varint at the cursor declares [frame_len]
    bytes and fewer remain, the frame reader raises nothing: the frame it
    hands to the record decoder is the rest of the buffer, shorter than
    [frame_len] and possibly empty.  When every byte from the cursor to the
    end of the buffer has its continuation bit set, the frame reader fails:
    with [TruncatedVarint], or with the decoder's format error once the chain
    is ten bytes long. *)
Theorem short_frame_is_passed_on (data : bytes) (pos : nat) :
  (∀ frame_len body,
     _DecodeVarint32 data pos = Ok (frame_len, body) →
     length data - body < frame_len →
     read_frame data pos = Ok (drop body data, frame_len, body) ∧
     length (drop body data) < frame_len)
  ∧ (Forall continues (drop pos data) →
     read_frame data pos =
       Err (if decide (length (drop pos data) < 10) then TruncatedVarint else InvalidFormat)).
Proof.
  split.
  - intros frame_len body Hdec Hshort. unfold read_frame. rewrite Hdec. simpl.
    rewrite length_drop. split; [|done].
    unfold slice. rewrite take_ge; [done|]. rewrite length_drop. lia.
  - intros Hall. unfold read_frame, _DecodeVarint32.
    rewrite (decode_varint_loop_chain _ _ 0) by (done || lia). done.
Qed.

(** ** The builder *)

(** The pairs of neighbours of a list: element [k] with element [k+1]. *)
Definition transitions {A} (l : list A) : list (A * A) := zip l (drop 1 l).

Lemma transitions_length {A} (l : list A) : length (transitions l) = length l - 1.
Proof. unfold transitions. rewrite length_zip, length_drop. lia. Qed.

Lemma transitions_lookup {A} (l : list A) (k : nat) (current next : A) :
  transitions l !! k = Some (current, next) ↔ l !! k = Some current ∧ l !! (k + 1) = Some next.
Proof.
  unfold transitions. rewrite lookup_zip_with_Some, Nat.add_comm.
  setoid_rewrite lookup_drop. split.
  - intros (x & y & [= <- <-] & Hx & Hy). done.
  - intros [Hx Hy]. by exists current, next.
Qed.

Lemma transitions_cons {A} (a b : A) (l : list A) :
  transitions (a :: b :: l) = (a, b) :: transitions (b :: l).
Proof. done. Qed.

Lemma foldM_app {A B} (f : B → A → result B) (b : B) (l1 l2 : list A) :
  foldM f b (l1 ++ l2) = foldM f b l1 ≫= λ b, foldM f b l2.
Proof.
  revert b. induction l1 as [|a l1 IH]; intros b; simpl; [done|].
  destruct (f b a); simpl; [apply IH | done].
Qed.

Lemma foldM_cons {A B} (f : B → A → result B) (b : B) (a : A) (l : list A) :
  foldM f b (a :: l) = f b a ≫= λ b, foldM f b l.
Proof. done. Qed.

Section BuilderProofs.
Context {ndarray float BP : Type} `{!BrainParametersView BP}.

Local Abbreviation BInfo := (BrainInfo ndarray float).
Local Abbreviation Val := (value ndarray float).
Local Abbreviation Call := (buffer_op BInfo Val).

(** *** The loop visits the indices 0 .. N-2 *)

Lemma demo_loop_range {B} `{!BufferOps BInfo Val B}
    (brain_infos : list BInfo) (brain_params : BP) (sequence_length : nat) experiences :
  ∀ idx (demo_buffer : B),
    idx + length experiences = length brain_infos →
    demo_loop brain_infos brain_params sequence_length experiences idx demo_buffer =
      foldM (demo_step brain_infos brain_params sequence_length) demo_buffer
        (seq idx (length brain_infos - 1 - idx)).
Proof.
  induction experiences as [|e experiences IH]; intros idx b Hlen; simpl in *.
  - replace (length brain_infos - 1 - idx) with 0 by lia. done.
  - destruct (Z.of_nat idx >? Z.of_nat (length brain_infos) - 2)%Z eqn:Hbreak.
    + apply Z.gtb_lt in Hbreak.
      replace (length brain_infos - 1 - idx) with 0 by lia. done.
    + rewrite Z.gtb_ltb in Hbreak. apply Z.ltb_ge in Hbreak.
      replace (length brain_infos - 1 - idx) with (S (length brain_infos - 1 - S idx)) by lia.
      simpl. destruct (demo_step _ _ _ _ _) as [b'|err]; simpl; [|done].
      apply IH. lia.
Qed.

Lemma make_demo_buffer_range {B} `{!BufferOps BInfo Val B}
    (brain_infos : list BInfo) (brain_params : BP) (sequence_length : nat) :
  make_demo_buffer (B := B) brain_infos brain_params sequence_length =
    foldM (demo_step brain_infos brain_params sequence_length) new_buffer
      (seq 0 (length brain_infos - 1))
    ≫= append_update_buffer sequence_length.
Proof.
  unfold make_demo_buffer. rewrite demo_loop_range by (simpl; lia).
  by rewrite Nat.sub_0_r.
Qed.

(** *** Step records and the calls of one transition *)

(** The StepRecord of the specification: what a [BrainInfo] holds for its
    one agent (index 0), over the visual channels of the parameter
    record. *)
Record StepRecord : Type := {
  sr_done : bool;
  sr_reward : float;
  sr_visual_observation : list ndarray;
  sr_vector_observation : option ndarray;
  sr_previous_action : ndarray;
}.

(** The step record of a [BrainInfo]; [None] when an entry the builder
    reads for agent 0 is missing. *)
Definition step_record (brain_params : BP) (bi : BInfo) : option StepRecord :=
  done ← local_done bi !! 0;
  reward ← rewards bi !! 0;
  visual ← mapM (λ i, visual_observations bi !! i ≫= (.!! 0))
             (seq 0 (number_visual_observations brain_params));
  action ← previous_vector_actions bi !! 0;
  match vector_observations bi !! 0, (vector_observation_space_size brain_params >? 0)%Z with
  | None, true => None
  | vector, _ => Some {| sr_done := done; sr_reward := reward;
                         sr_visual_observation := visual;
                         sr_vector_observation := vector;
                         sr_previous_action := action |}
  end.

(** The calls the specification asks for one Transition (section 4.4,
    steps 2 and 3), [current_brain_info] being the record [current] was
    read from. *)
Definition transition_calls (brain_params : BP) (sequence_length : nat)
    (current_brain_info : BInfo) (current next : StepRecord) : list Call :=
  [SetLastBrainInfo current_brain_info;
   FieldAppend "done" (VBool (sr_done next));
   FieldAppend "rewards" (VFloat (sr_reward next))]
  ++ imap (λ i obs, FieldAppend ("visual_obs" +:+ pretty i) (VArray obs))
       (sr_visual_observation current)
  ++ (if (vector_observation_space_size brain_params >? 0)%Z
      then match sr_vector_observation current with
           | Some obs => [FieldAppend "vector_obs" (VArray obs)]
           | None => []
           end
      else [])
  ++ [FieldAppend "actions" (VArray (sr_previous_action next));
      FieldAppend "prev_action" (VArray (sr_previous_action current))]
  ++ (if sr_done next then [AppendUpdateBuffer sequence_length; ResetLocalBuffers] else []).

Lemma step_record_Some brain_params bi r :
  step_record brain_params bi = Some r →
  local_done bi !! 0 = Some (sr_done r) ∧
  rewards bi !! 0 = Some (sr_reward r) ∧
  Forall2 (λ i obs, visual_observations bi !! i ≫= (.!! 0) = Some obs)
    (seq 0 (number_visual_observations brain_params)) (sr_visual_observation r) ∧
  previous_vector_actions bi !! 0 = Some (sr_previous_action r) ∧
  vector_observations bi !! 0 = sr_vector_observation r ∧
  ((vector_observation_space_size brain_params >? 0)%Z = true →
   is_Some (sr_vector_observation r)).
Proof.
  unfold step_record. intros Hrec.
  destruct (local_done bi !! 0) as [d|]; simpl in Hrec; [|done].
  destruct (rewards bi !! 0) as [x|]; simpl in Hrec; [|done].
  destruct (mapM _ _) as [vis|] eqn:Hvis; simpl in Hrec; [|done].
  destruct (previous_vector_actions bi !! 0) as [a|]; simpl in Hrec; [|done].
  apply mapM_Some in Hvis.
  destruct (vector_observations bi !! 0) as [v|],
    (vector_observation_space_size brain_params >? 0)%Z; simplify_eq; simpl;
    split_and!; eauto; done.
Qed.

(** *** The calls of a run *)

Lemma replay_app {B} `{!BufferOps BInfo Val B} (l1 l2 : list Call) (b : B) :
  replay (l1 ++ l2) b = replay l1 b ≫= replay l2.
Proof. apply foldM_app. Qed.

Lemma replay_cons {B} `{!BufferOps BInfo Val B} (op : Call) (ops : list Call) (b : B) :
  replay (op :: ops) b = apply_op b op ≫= replay ops.
Proof. done. Qed.

Lemma replay_nil {B} `{!BufferOps BInfo Val B} (b : B) : replay [] b = Ok b.
Proof. done. Qed.

Ltac replay_simpl := repeat (progress (rewrite ?replay_cons, ?replay_nil; simpl)).

Lemma replay_call_log (ops log : list Call) : replay ops log = Ok (log ++ ops).
Proof.
  revert log. induction ops as [|op ops IH]; intros log.
  - by rewrite (right_id_L [] (++)).
  - rewrite replay_cons.
    destruct op; simpl; rewrite IH, <- (assoc_L (++)); done.
Qed.

Lemma append_visual_obs_Some {B} `{!BufferOps BInfo Val B} (bi : BInfo) (b : B)
    (i : nat) (obs : ndarray) :
  visual_observations bi !! i ≫= (.!! 0) = Some obs →
  append_visual_obs bi b i = Ok (field_append ("visual_obs" +:+ pretty i) (VArray obs) b).
Proof.
  unfold append_visual_obs, index. intros Hobs.
  destruct (visual_observations bi !! i) as [camera|]; simpl in *; [|done].
  destruct (camera !! 0); simpl in *; by simplify_eq.
Qed.

Lemma foldM_append_visual_obs {B} `{!BufferOps BInfo Val B} (bi : BInfo) (m : nat) :
  ∀ n visual (b : B),
    Forall2 (λ i obs, visual_observations bi !! i ≫= (.!! 0) = Some obs) (seq n m) visual →
    foldM (append_visual_obs bi) b (seq n m) =
      replay (imap (λ i obs, FieldAppend ("visual_obs" +:+ pretty (n + i)) (VArray obs)) visual) b.
Proof.
  induction m as [|m IH]; intros n visual b Hall.
  - apply Forall2_nil_inv_l in Hall as ->. done.
  - change (seq n (S m)) with (n :: seq (S n) m) in *.
    apply Forall2_cons_inv_l in Hall as (obs & visual' & Hobs & Hall & ->).
    rewrite foldM_cons, (append_visual_obs_Some bi b n obs Hobs). simpl.
    rewrite (IH (S n) visual') by done.
    rewrite replay_cons. simpl. rewrite Nat.add_0_r. f_equal.
    apply imap_ext. intros i x _. simpl. do 3 f_equal. lia.
Qed.

(** One turn of the loop makes the calls of its transition, on any buffer. *)
Lemma demo_step_replay {B} `{!BufferOps BInfo Val B}
    (brain_infos : list BInfo) (brain_params : BP)
    (sequence_length idx : nat) (current_brain_info next_brain_info : BInfo)
    (current next : StepRecord) (b : B) :
  brain_infos !! idx = Some current_brain_info →
  brain_infos !! (idx + 1) = Some next_brain_info →
  step_record brain_params current_brain_info = Some current →
  step_record brain_params next_brain_info = Some next →
  demo_step brain_infos brain_params sequence_length b idx =
    replay (transition_calls brain_params sequence_length current_brain_info current next) b.
Proof.
  intros Hcur Hnext Hcurrent Hnextrec.
  apply step_record_Some in Hcurrent as (_ & _ & Hvis & Hprev & Hvec & Hsome).
  apply step_record_Some in Hnextrec as (Hdone & Hreward & _ & Haction & _ & _).
  unfold demo_step, index, transition_calls.
  rewrite Hcur, Hnext. simpl. rewrite Hdone, Hreward. simpl.
  rewrite (foldM_append_visual_obs _ _ 0 (sr_visual_observation current)) by done.
  do 3 (rewrite replay_cons; simpl). rewrite replay_app.
  destruct (replay (imap _ _) _) as [b1|e]; simpl; [|done].
  rewrite Haction, Hprev, Hvec, replay_app.
  destruct (vector_observation_space_size brain_params >? 0)%Z.
  - destruct Hsome as [obs Hobs]; [done|]. rewrite Hobs.
    destruct (sr_done next); replay_simpl; [|done].
    by destruct (append_update_buffer _ _).
  - destruct (sr_done next); replay_simpl; [|done].
    by destruct (append_update_buffer _ _).
Qed.

(** The calls of the transition formed by two neighbours. *)
Definition calls_of_pair (brain_params : BP) (sequence_length : nat)
    (pair : (BInfo * StepRecord) * (BInfo * StepRecord)) : list Call :=
  transition_calls brain_params sequence_length pair.1.1 pair.1.2 pair.2.2.

(** The calls the specification asks of a whole run: those of every
    transition in turn, then the final flush. *)
Definition run_calls (brain_params : BP) (sequence_length : nat)
    (brain_infos : list BInfo) (records : list StepRecord) : list Call :=
  mjoin (calls_of_pair brain_params sequence_length <$> transitions (zip brain_infos records))
  ++ [AppendUpdateBuffer sequence_length].

Definition records_of (brain_params : BP) (brain_infos : list BInfo)
    (records : list StepRecord) : Prop :=
  Forall2 (λ bi r, step_record brain_params bi = Some r) brain_infos records.

Lemma foldM_demo_step_replay {B} `{!BufferOps BInfo Val B}
    (brain_infos : list BInfo) (brain_params : BP) (sequence_length : nat) records :
  records_of brain_params brain_infos records →
  ∀ m i (b : B),
    i + m ≤ length brain_infos - 1 →
    foldM (demo_step brain_infos brain_params sequence_length) b (seq i m) =
      replay (mjoin (calls_of_pair brain_params sequence_length <$>
                       take m (drop i (transitions (zip brain_infos records))))) b.
Proof.
  intros Hall. induction m as [|m IH]; intros i b Hle.
  - done.
  - change (seq i (S m)) with (i :: seq (S i) m).
    destruct (lookup_lt_is_Some_2 brain_infos i) as [bi Hbi]; [lia|].
    destruct (lookup_lt_is_Some_2 brain_infos (i + 1)) as [bi' Hbi']; [lia|].
    destruct (Forall2_lookup_l _ _ _ _ _ Hall Hbi) as (r & Hr & Hrec).
    destruct (Forall2_lookup_l _ _ _ _ _ Hall Hbi') as (r' & Hr' & Hrec').
    assert (Hpair : transitions (zip brain_infos records) !! i = Some ((bi, r), (bi', r'))).
    { apply transitions_lookup. split; apply lookup_zip_with_Some; eauto 10. }
    rewrite (drop_S _ _ _ Hpair).
    rewrite foldM_cons, (demo_step_replay _ _ _ _ bi bi' r r') by done.
    change (take (S m) (?x :: ?l)) with (x :: take m l).
    change (mjoin (?f <$> ?x :: ?l)) with (f x ++ mjoin (f <$> l)).
    rewrite replay_app. unfold calls_of_pair at 1. simpl.
    destruct (replay _ b) as [b1|e]; simpl; [|done].
    apply IH. lia.
Qed.

(** On any buffer, a run makes the calls of [run_calls]. *)
Lemma make_demo_buffer_replay {B} `{!BufferOps BInfo Val B}
    (brain_infos : list BInfo) (brain_params : BP) (sequence_length : nat) records :
  records_of brain_params brain_infos records →
  make_demo_buffer (B := B) brain_infos brain_params sequence_length =
    replay (run_calls brain_params sequence_length brain_infos records) new_buffer.
Proof.
  intros Hall. rewrite make_demo_buffer_range.
  rewrite (foldM_demo_step_replay _ _ _ records Hall) by lia.
  unfold run_calls. rewrite replay_app, drop_0, take_ge.
  2: { rewrite transitions_length, length_zip_with. lia. }
  destruct (replay _ _) as [b|e]; simpl; [|done].
  replay_simpl. by destruct (append_update_buffer _ _).
Qed.

Lemma make_demo_buffer_calls (brain_infos : list BInfo) (brain_params : BP)
    (sequence_length : nat) records :
  records_of brain_params brain_infos records →
  make_demo_buffer (B := list Call) brain_infos brain_params sequence_length =
    Ok (run_calls brain_params sequence_length brain_infos records).
Proof.
  intros Hall. rewrite (make_demo_buffer_replay _ _ _ records Hall).
  apply (replay_call_log _ []).
Qed.

(** C3.  A Transition pairs the record at [idx] (current) with the record
    at [idx + 1] (next).  The calls the builder makes for it are those of
    [transition_calls]: [done] receives [next.done], [rewards] receives
    [next.reward], [visual_obs{i}] receives [current.visual_observation[i]]
    for each visual channel of the parameter record, [vector_obs] receives
    [current.vector_observation] only when the parameter record's
    [vector_observation_space_size] is positive, [actions] receives
    [next.previous_action] and [prev_action] receives
    [current.previous_action]. *)
Theorem transition_sources (brain_infos : list BInfo) (brain_params : BP)
    (sequence_length idx : nat) (current_brain_info next_brain_info : BInfo)
    (current next : StepRecord) (log : list Call) :
  brain_infos !! idx = Some current_brain_info →
  brain_infos !! (idx + 1) = Some next_brain_info →
  step_record brain_params current_brain_info = Some current →
  step_record brain_params next_brain_info = Some next →
  demo_step brain_infos brain_params sequence_length log idx =
    Ok (log ++ transition_calls brain_params sequence_length current_brain_info current next)
  ∧ length (sr_visual_observation current) = number_visual_observations brain_params.
Proof.
  intros Hcur Hnext Hcurrent Hnextrec. split.
  - rewrite (demo_step_replay _ _ _ _ _ _ current next) by done. apply replay_call_log.
  - apply step_record_Some in Hcurrent as (_ & _ & Hvis & _).
    by rewrite <- (Forall2_length _ _ _ Hvis), length_seq.
Qed.

(** *** Counting the appends *)

(** The fields the builder fills for a parameter record. *)
Definition buffer_fields (brain_params : BP) : list string :=
  ["done"; "rewards"]
  ++ ((λ i, "visual_obs" +:+ pretty i) <$> seq 0 (number_visual_observations brain_params))
  ++ (if (vector_observation_space_size brain_params >? 0)%Z then ["vector_obs"] else [])
  ++ ["actions"; "prev_action"].

Lemma appended_app (key : string) (l1 l2 : list Call) :
  appended key (l1 ++ l2) = appended key l1 ++ appended key l2.
Proof. apply omap_app. Qed.

Lemma appended_cons (key : string) (op : Call) (l : list Call) :
  appended key (op :: l) =
    match op with
    | FieldAppend k v => if decide (k = key) then v :: appended key l else appended key l
    | _ => appended key l
    end.
Proof. unfold appended. simpl. destruct op; try done. by case_decide. Qed.

Lemma visual_name_inj (i j : nat) :
  "visual_obs" +:+ pretty i = "visual_obs" +:+ pretty j → i = j.
Proof.
  intros Heq. injection Heq as Heq. change (pretty i = pretty j) in Heq.
  by apply (inj pretty) in Heq.
Qed.

Lemma appended_visual_count (j : nat) (visual : list ndarray) :
  ∀ n,
    length (appended ("visual_obs" +:+ pretty j)
              (imap (λ i obs, FieldAppend ("visual_obs" +:+ pretty (n + i)) (VArray obs))
                 visual : list Call)) =
      if decide (n ≤ j < n + length visual) then 1 else 0.
Proof.
  induction visual as [|obs visual IH]; intros n.
  - simpl. by rewrite decide_False by lia.
  - rewrite imap_cons, appended_cons.
    rewrite (imap_ext _ (λ i obs, FieldAppend ("visual_obs" +:+ pretty (S n + i)) (VArray obs)));
      last first.
    { intros i x _. simpl. do 3 f_equal. lia. }
    rewrite length_cons. destruct (decide (_ = _)) as [Heq|Hne].
    + apply visual_name_inj in Heq. rewrite length_cons, IH.
      rewrite decide_False, decide_True by lia. done.
    + rewrite IH. assert (n ≠ j) by (intros ->; apply Hne; do 2 f_equal; lia).
      destruct (decide (S n ≤ j < S n + length visual)), (decide (n ≤ j < n + S (length visual)));
        done || lia.
Qed.

Lemma appended_visual_other (key : string) (visual : list ndarray) :
  (∀ i : nat, key ≠ "visual_obs" +:+ pretty i) →
  ∀ n, appended key
         (imap (λ i obs, FieldAppend ("visual_obs" +:+ pretty (n + i)) (VArray obs))
            visual : list Call) = [].
Proof.
  intros Hkey. induction visual as [|obs visual IH]; intros n; [done|].
  rewrite imap_cons, appended_cons.
  rewrite decide_False by (intros Heq; by eapply Hkey).
  rewrite (imap_ext _ (λ i obs, FieldAppend ("visual_obs" +:+ pretty (S n + i)) (VArray obs))).
  - apply IH.
  - intros i x _. simpl. do 3 f_equal. lia.
Qed.

(** Every field of [buffer_fields] receives one entry per transition. *)
Lemma appended_transition_calls (key : string) (brain_params : BP) (sequence_length : nat)
    (bi : BInfo) (current next : StepRecord) :
  key ∈ buffer_fields brain_params →
  step_record brain_params bi = Some current →
  length (appended key (transition_calls brain_params sequence_length bi current next)) = 1.
Proof.
  intros Hkey Hcurrent.
  apply step_record_Some in Hcurrent as (_ & _ & Hvis & _ & _ & Hsome).
  apply Forall2_length in Hvis. rewrite length_seq in Hvis.
  unfold transition_calls.
  rewrite !appended_app, !length_app.
  change (imap ?f (sr_visual_observation current))
    with (imap (λ i obs, f (0 + i) obs) (sr_visual_observation current)).
  unfold buffer_fields in Hkey.
  rewrite !elem_of_app, !elem_of_cons, list_elem_of_fmap in Hkey.
  setoid_rewrite elem_of_seq in Hkey.
  destruct Hkey as [[->|[->|[]%elem_of_nil]]|[(j & -> & Hj)|[Hvec|[->|[->|[]%elem_of_nil]]]]].
  - rewrite appended_visual_other by done.
    destruct (_ >? _)%Z, (sr_vector_observation current), (sr_done next); done.
  - rewrite appended_visual_other by done.
    destruct (_ >? _)%Z, (sr_vector_observation current), (sr_done next); done.
  - rewrite appended_visual_count, decide_True by lia.
    destruct (_ >? _)%Z, (sr_vector_observation current), (sr_done next); done.
  - destruct (vector_observation_space_size brain_params >? 0)%Z;
      [|by apply elem_of_nil in Hvec].
    apply list_elem_of_singleton in Hvec as ->.
    rewrite appended_visual_other by done.
    destruct Hsome as [obs ->]; [done|]. by destruct (sr_done next).
  - rewrite appended_visual_other by done.
    destruct (_ >? _)%Z, (sr_vector_observation current), (sr_done next); done.
  - rewrite appended_visual_other by done.
    destruct (_ >? _)%Z, (sr_vector_observation current), (sr_done next); done.
Qed.

Lemma transitions_records (brain_params : BP) (brain_infos : list BInfo) records :
  records_of brain_params brain_infos records →
  Forall (λ pair, step_record brain_params pair.1.1 = Some pair.1.2)
    (transitions (zip brain_infos records)).
Proof.
  intros Hall. apply Forall_lookup. intros k [[bi r] [bi' r']] Hpair. simpl.
  apply transitions_lookup in Hpair as [Hk _].
  apply lookup_zip_with_Some in Hk as (x & y & [= <- <-] & Hbi & Hr).
  by destruct (Forall2_lookup_l _ _ _ _ _ Hall Hbi) as (r0 & ? & ?); simplify_eq.
Qed.

Lemma appended_run_calls (key : string) (brain_params : BP) (sequence_length : nat)
    (brain_infos : list BInfo) records :
  records_of brain_params brain_infos records →
  key ∈ buffer_fields brain_params →
  length (appended key (run_calls brain_params sequence_length brain_infos records)) =
    length brain_infos - 1.
Proof.
  intros Hall Hkey. unfold run_calls. rewrite appended_app, length_app.
  pose proof (transitions_records _ _ _ Hall) as Hpairs.
  assert (Hcount :
    length (appended key (mjoin (calls_of_pair brain_params sequence_length <$>
                                   transitions (zip brain_infos records)))) =
      length (transitions (zip brain_infos records))).
  { induction Hpairs as [|[[bi r] [bi' r']] pairs Hrec _ IH]; [done|].
    rewrite fmap_cons. change (mjoin (?x :: ?l)) with (x ++ mjoin l).
    rewrite appended_app, length_app, IH.
    change (calls_of_pair ?a ?n (?x, ?y, (?z, ?w))) with (transition_calls a n x y w).
    by rewrite appended_transition_calls. }
  rewrite Hcount, transitions_length, length_zip_with, <- (Forall2_length _ _ _ Hall).
  simpl. lia.
Qed.

(** C2.  For a list of N records the loop runs its body at the indices
    0 .. N-2 and nowhere else, whatever the buffer; the transitions formed
    are the N-1 pairs of the record at [k] with the record at [k+1]; and
    every field of the buffer receives exactly N-1 appended entries before
    the flushes cut them.  (For the empty list no transition is formed
    either.) *)
Theorem transitions_formed (brain_infos : list BInfo) (brain_params : BP)
    (sequence_length : nat) (records : list StepRecord) :
  records_of brain_params brain_infos records →
  (∀ (B : Type) (ops : BufferOps BInfo Val B),
     make_demo_buffer (B := B) brain_infos brain_params sequence_length =
       foldM (demo_step brain_infos brain_params sequence_length) new_buffer
         (seq 0 (length brain_infos - 1))
       ≫= append_update_buffer sequence_length)
  ∧ length (transitions (zip brain_infos records)) = length brain_infos - 1
  ∧ (∀ k current next,
       transitions (zip brain_infos records) !! k = Some (current, next) ↔
       zip brain_infos records !! k = Some current ∧
       zip brain_infos records !! (k + 1) = Some next)
  ∧ make_demo_buffer (B := list Call) brain_infos brain_params sequence_length =
      Ok (run_calls brain_params sequence_length brain_infos records)
  ∧ ∀ key, key ∈ buffer_fields brain_params →
      length (appended key (run_calls brain_params sequence_length brain_infos records)) =
        length brain_infos - 1.
Proof.
  intros Hall. split_and!.
  - intros B ops. apply make_demo_buffer_range.
  - rewrite transitions_length, length_zip_with, <- (Forall2_length _ _ _ Hall). lia.
  - intros k current next. apply transitions_lookup.
  - by apply make_demo_buffer_calls.
  - intros key Hkey. by apply appended_run_calls.
Qed.

(** *** The flush schedule *)

Lemma schedule_app (l1 l2 : list Call) : schedule (l1 ++ l2) = schedule l1 ++ schedule l2.
Proof. apply filter_app. Qed.

Lemma schedule_cons (op : Call) (l : list Call) :
  schedule (op :: l) = if is_control op then op :: schedule l else schedule l.
Proof.
  unfold schedule. destruct (is_control op) eqn:Hop.
  - rewrite filter_cons_True; [done|]. by rewrite Hop.
  - rewrite filter_cons_False; [done|]. rewrite Hop. simpl. tauto.
Qed.

Lemma schedule_imap_appends (f : nat → ndarray → Call) (visual : list ndarray) :
  (∀ i obs, is_control (f i obs) = false) → schedule (imap f visual) = [].
Proof.
  revert f. induction visual as [|obs visual IH]; intros f Hf; [done|].
  rewrite imap_cons, schedule_cons, Hf. apply IH. intros i x. apply Hf.
Qed.

(** What a transition leaves in the schedule: its mark, followed by a
    flush and a reset exactly when [next.done] holds. *)
Definition transition_schedule (sequence_length : nat)
    (pair : (BInfo * StepRecord) * (BInfo * StepRecord)) : list Call :=
  SetLastBrainInfo pair.1.1
  :: (if sr_done pair.2.2 then [AppendUpdateBuffer sequence_length; ResetLocalBuffers] else []).

Lemma schedule_transition_calls (brain_params : BP) (sequence_length : nat) pair :
  schedule (calls_of_pair brain_params sequence_length pair) =
    transition_schedule sequence_length pair.
Proof.
  unfold calls_of_pair, transition_calls, transition_schedule.
  rewrite !schedule_app, schedule_imap_appends by done.
  destruct (_ >? _)%Z, (sr_vector_observation pair.1.2), (sr_done pair.2.2); done.
Qed.

Lemma schedule_run_calls (brain_params : BP) (sequence_length : nat)
    (brain_infos : list BInfo) records :
  schedule (run_calls brain_params sequence_length brain_infos records) =
    mjoin (transition_schedule sequence_length <$> transitions (zip brain_infos records))
    ++ [AppendUpdateBuffer sequence_length].
Proof.
  unfold run_calls. rewrite schedule_app. f_equal.
  induction (transitions (zip brain_infos records)) as [|pair pairs IH]; [done|].
  rewrite !fmap_cons. change (mjoin (?x :: ?l)) with (x ++ mjoin l).
  by rewrite schedule_app, IH, schedule_transition_calls.
Qed.

(** *** The training buffer of the specification *)

Lemma chunks_go_join {A} (n : nat) :
  0 < n → ∀ fuel (l : list A), length l ≤ fuel → mjoin (chunks_go fuel n l) = l.
Proof.
  intros Hn. induction fuel as [|fuel IH]; intros [|x l] Hlen; simpl in *; try done; [lia|].
  destruct n as [|n]; [lia|]. simpl. f_equal.
  rewrite IH by (rewrite length_drop; lia). apply take_drop.
Qed.

Lemma chunks_go_sizes {A} (n : nat) :
  0 < n → ∀ fuel (l : list A), Forall (λ c, 0 < length c ≤ n) (chunks_go fuel n l).
Proof.
  intros Hn. induction fuel as [|fuel IH]; intros [|x l]; simpl; try done.
  constructor; [|apply IH]. rewrite length_take. simpl. lia.
Qed.

Lemma flush_spec_buffer (n : nat) (b : Buffer BInfo Val) :
  ∃ b', append_update_buffer n b = Ok b' ∧
        ∀ key, output b' key = output b key ++ chunks n (accumulated b key) ∧
               accumulated b' key = accumulated b key.
Proof.
  eexists. split; [done|]. intros key. unfold output, accumulated. simpl.
  rewrite lookup_merge.
  destruct (update_buffer b !! key), (local_buffers b !! key); unfold chunks; simpl;
    rewrite ?app_nil_r; done.
Qed.

Lemma reset_spec_buffer (b : Buffer BInfo Val) (key : string) :
  accumulated (reset_local_buffers b) key = [] ∧
  output (reset_local_buffers b) key = output b key.
Proof.
  unfold output, accumulated. simpl. rewrite lookup_fmap.
  by destruct (local_buffers b !! key).
Qed.

Lemma replay_spec_buffer (ops : list Call) :
  ∀ b : Buffer BInfo Val, ∃ b', replay ops b = Ok b'.
Proof.
  induction ops as [|op ops IH]; intros b; [by exists b|].
  rewrite replay_cons. destruct op; simpl; apply IH.
Qed.

(** C4.  With a positive [sequence_length]: the calls of a run other than
    the appends are, for each transition in turn, its mark followed by a
    flush and a reset exactly when [next.done] holds, and after the last
    transition one more flush, whether or not a [done] was seen.  On the
    buffer of the specification the run returns a buffer; a flush adds to
    the output of every field the chunks of what the field has
    accumulated, chunks of at most [sequence_length] entries whose
    concatenation is the accumulated sequence, and the reset after it
    leaves every accumulator empty; a flush of empty accumulators raises
    nothing and leaves every output as it was. *)
Theorem flush_schedule (brain_infos : list BInfo) (brain_params : BP)
    (sequence_length : nat) (records : list StepRecord) :
  0 < sequence_length →
  records_of brain_params brain_infos records →
  (make_demo_buffer (B := list Call) brain_infos brain_params sequence_length =
     Ok (run_calls brain_params sequence_length brain_infos records)
   ∧ schedule (run_calls brain_params sequence_length brain_infos records) =
       mjoin (transition_schedule sequence_length <$> transitions (zip brain_infos records))
       ++ [AppendUpdateBuffer sequence_length])
  ∧ (∃ b : Buffer BInfo Val,
       make_demo_buffer brain_infos brain_params sequence_length = Ok b)
  ∧ (∀ b : Buffer BInfo Val, ∃ b',
       append_update_buffer sequence_length b = Ok b' ∧
       ∀ key,
         output b' key = output b key ++ chunks sequence_length (accumulated b key) ∧
         mjoin (chunks sequence_length (accumulated b key)) = accumulated b key ∧
         Forall (λ c, 0 < length c ≤ sequence_length)
           (chunks sequence_length (accumulated b key)) ∧
         accumulated (reset_local_buffers b') key = [] ∧
         output (reset_local_buffers b') key = output b' key)
  ∧ (∀ b : Buffer BInfo Val,
       (∀ key, accumulated b key = []) →
       ∃ b', append_update_buffer sequence_length b = Ok b' ∧
             ∀ key, output b' key = output b key).
Proof.
  intros Hpos Hall. split_and!.
  - by apply make_demo_buffer_calls.
  - apply schedule_run_calls.
  - rewrite (make_demo_buffer_replay _ _ _ records Hall). apply replay_spec_buffer.
  - intros b. destruct (flush_spec_buffer sequence_length b) as (b' & Hflush & Hout).
    exists b'. split; [done|]. intros key. split_and!.
    + apply Hout.
    + by apply chunks_go_join.
    + by apply chunks_go_sizes.
    + apply reset_spec_buffer.
    + apply reset_spec_buffer.
  - intros b Hempty. destruct (flush_spec_buffer sequence_length b) as (b' & Hflush & Hout).
    exists b'. split; [done|]. intros key.
    rewrite (proj1 (Hout key)), Hempty. apply (right_id_L [] (++)).
Qed.

End BuilderProofs.

(** * The claims on concrete inputs *)

(** ** Files and directories used below *)

(** Declares two steps and holds three step frames. *)
Definition two_of_three_fs : filesystem := λ path,
  if String.eqb path "run.demo" then Some (RegularFile example_two_of_three) else None.

(** Declares no step and holds two step frames. *)
Definition example_zero_declared : bytes :=
  example_file [x18; x00] [xaa] [[x01]; [x02]].

Definition empty_file_fs : filesystem := λ path,
  if String.eqb path "empty.demo" then Some (RegularFile []) else None.

(** A directory with one entry, which is no demonstration. *)
Definition notes_fs : filesystem := λ path,
  if String.eqb path "demos" then Some (Directory ["notes.txt"]) else None.

Definition empty_directory_fs : filesystem := λ path,
  if String.eqb path "demos" then Some (Directory []) else None.

Definition example_first : bytes := example_file [x18; x01] [xaa] [[x01]; [x09]].
Definition example_second : bytes := example_file [x18; x02] [xbb] [[x02]; [x03]].

(** Two valid files with different parameter frames, and a third entry. *)
Definition two_files_fs : filesystem := λ path,
  if String.eqb path "demos" then Some (Directory ["a.demo"; "notes.txt"; "b.demo"])
  else if String.eqb path "demos/a.demo" then Some (RegularFile example_first)
  else if String.eqb path "demos/b.demo" then Some (RegularFile example_second)
  else None.

(** The first file declares no step and holds none. *)
Definition example_stepless : bytes := example_file [x18; x00] [xaa] [].
Definition example_one_step : bytes := example_file [x18; x01] [xbb] [[x02]].

Definition stepless_first_fs : filesystem := λ path,
  if String.eqb path "demos" then Some (Directory ["a.demo"; "b.demo"])
  else if String.eqb path "demos/a.demo" then Some (RegularFile example_stepless)
  else if String.eqb path "demos/b.demo" then Some (RegularFile example_one_step)
  else None.

(** ** The scanner *)

Lemma example_two_of_three_layout :
  demo_layout example_two_of_three 2%Z [xaa] [[x01]; [x02]] 38.
Proof.
  exists 2, 1, 1, 34. split_and!; try reflexivity.
  - vm_compute. lia.
  - change (step_frames example_two_of_three 35 [[x01]; [x02]] 38).
    apply (step_frames_more (P := example_protocol) example_two_of_three 35 1 36 [x01] [[x02]] 38);
      [vm_compute; lia | reflexivity | reflexivity |].
    apply (step_frames_last (P := example_protocol) example_two_of_three 37 1 38 [x02]);
      [vm_compute; lia | reflexivity | reflexivity].
Defined.

Lemma scanner_stops_at_expected_count_witness :
  demo_layout example_two_of_three 2%Z [xaa] [[x01]; [x02]] 38 ∧
  scan_file example_two_of_three initial_state =
    Ok (ScanState (Some [xaa]) (Some [xaa]) [([xaa], [x01]); ([xaa], [x02])] 2%Z 38 3) ∧
  load_demonstration two_of_three_fs "run.demo" =
    Ok (Some [xaa], [([xaa], [x01]); ([xaa], [x02])], 2%Z).
Proof.
  split; [exact example_two_of_three_layout|].
  destruct (scanner_stops_at_expected_count (P := example_protocol) example_two_of_three 2 2%Z [xaa]
              [[x01]; [x02]] 38 [xaa] [([xaa], [x01]); ([xaa], [x02])])
    as (Hscan & _ & Hload).
  - lia.
  - exact example_two_of_three_layout.
  - reflexivity.
  - reflexivity.
  - reflexivity.
  - repeat constructor.
  - split; [exact Hscan|]. apply Hload; reflexivity.
Defined.

(** C1 as stated fails for K = 0: this file declares no step and holds two
    step frames; the scanner returns both records and stops only at the end
    of the buffer. *)
Lemma scanner_zero_expected_reads_on :
  read_frame example_zero_declared 0 = Ok ([x18; x00], 2, 1) ∧
  example_ParseMeta [x18; x00] = Some 0%Z ∧
  scan_file example_zero_declared initial_state =
    Ok (ScanState (Some [xaa]) (Some [xaa]) [([xaa], [x01]); ([xaa], [x02])] 0%Z
          (length example_zero_declared) 4).
Proof. split_and!; reflexivity. Qed.

Lemma first_frame_forces_cursor_33_witness :
  scan_step example_two_of_three initial_state =
    Ok (Next (ScanState None None [] 2%Z 33 1)) ∧
  scan_step example_two_of_three (ScanState None None [] 2%Z 33 1) =
    Ok (Next (ScanState None (Some [xaa]) [] 2%Z 35 2)) ∧
  scan_step example_two_of_three (ScanState None (Some [xaa]) [] 2%Z 35 2) =
    Ok (Next (ScanState (Some [xaa]) (Some [xaa]) [([xaa], [x01])] 2%Z 37 3)) ∧
  scan_step example_two_of_three
      (ScanState (Some [xaa]) (Some [xaa]) [([xaa], [x01])] 2%Z 37 3) =
    Ok (Break (ScanState (Some [xaa]) (Some [xaa]) [([xaa], [x01]); ([xaa], [x02])] 2%Z 38 3)).
Proof.
  destruct (first_frame_forces_cursor_33 (P := example_protocol) example_two_of_three
              initial_state 2 1 eq_refl) as (Hmeta & _ & _).
  destruct (first_frame_forces_cursor_33 (P := example_protocol) example_two_of_three
              (ScanState (P := example_protocol) None None [] 2%Z 33 1) 1 34 eq_refl) as (_ & Hparams & _).
  destruct (first_frame_forces_cursor_33 (P := example_protocol) example_two_of_three
              (ScanState (P := example_protocol) None (Some [xaa]) [] 2%Z 35 2) 1 36 eq_refl) as (_ & _ & Hstep).
  destruct (first_frame_forces_cursor_33 (P := example_protocol) example_two_of_three
              (ScanState (P := example_protocol) (Some [xaa]) (Some [xaa]) [([xaa], [x01])] 2%Z 37 3) 1 38 eq_refl)
    as (_ & _ & Hbreak).
  split_and!.
  - exact (Hmeta 2%Z eq_refl eq_refl).
  - exact (Hparams [xaa] eq_refl eq_refl).
  - exact (Hstep [x01] [xaa] ([xaa], [x01]) (le_n 2) eq_refl eq_refl eq_refl).
  - exact (Hbreak [x02] [xaa] ([xaa], [x02]) (le_S 2 2 (le_n 2)) eq_refl eq_refl eq_refl).
Defined.

(** C5 as stated fails for the step frame that brings the number of records
    to the expected count: the frame at byte 37 declares a length of 1 and
    its body starts at byte 38; the loop breaks with the cursor at 38, not
    at 39, and that is the cursor the scan of the file ends with. *)
Lemma break_frame_leaves_cursor :
  _DecodeVarint32 example_two_of_three 37 = Ok (1, 38) ∧
  scan_step (P := example_protocol) example_two_of_three
      (ScanState (Some [xaa]) (Some [xaa]) [([xaa], [x01])] 2%Z 37 3) =
    Ok (Break (ScanState (Some [xaa]) (Some [xaa]) [([xaa], [x01]); ([xaa], [x02])] 2%Z 38 3)) ∧
  38 ≠ 38 + 1 ∧
  scan_file (P := example_protocol) example_two_of_three initial_state =
    Ok (ScanState (Some [xaa]) (Some [xaa]) [([xaa], [x01]); ([xaa], [x02])] 2%Z 38 3).
Proof. split_and!; [reflexivity | reflexivity | lia | reflexivity]. Qed.

Lemma empty_file_scans_to_nothing_witness :
  scan_file [] initial_state = Ok initial_state ∧
  load_demonstration empty_file_fs "empty.demo" = Ok (None, [], 0%Z).
Proof.
  destruct (empty_file_scans_to_nothing (P := example_protocol) empty_file_fs "empty.demo" eq_refl eq_refl)
    as [Hscan Hload].
  split; [apply (Hscan initial_state) | exact Hload].
Defined.

(** C8 as stated fails: a file of zero bytes does not make the scan fail
    with [EmptyInput]; the scan succeeds. *)
Lemma empty_file_not_EmptyInput :
  scan_file [] initial_state ≠ Err EmptyInput ∧
  load_demonstration empty_file_fs "empty.demo" ≠ Err EmptyInput.
Proof. split; discriminate. Qed.

(** ** The frame reader *)

Lemma short_frame_is_passed_on_witness :
  read_frame [x05; x01; x02] 0 = Ok ([x01; x02], 5, 1) ∧
  read_frame [x05] 0 = Ok ([], 5, 1) ∧
  read_frame [x02; x18; x80; x81] 2 = Err TruncatedVarint.
Proof.
  split_and!.
  - apply (proj1 (short_frame_is_passed_on [x05; x01; x02] 0) 5 1); [reflexivity | simpl; lia].
  - apply (proj1 (short_frame_is_passed_on [x05] 0) 5 1); [reflexivity | simpl; lia].
  - apply (proj2 (short_frame_is_passed_on [x02; x18; x80; x81] 2)).
    repeat constructor; discriminate.
Defined.

(** C9 as stated fails: the varint declares five bytes and two remain; the
    frame reader returns the two bytes and raises nothing. *)
Lemma short_frame_not_TruncatedFrame :
  _DecodeVarint32 [x05; x01; x02] 0 = Ok (5, 1) ∧
  read_frame [x05; x01; x02] 0 = Ok ([x01; x02], 5, 1) ∧
  read_frame [x05; x01; x02] 0 ≠ Err TruncatedFrame.
Proof. split_and!; done. Qed.

(** ** The aggregator *)

Definition first_demo_file : demo_file (P := example_protocol) :=
  DemoFile example_first 1%Z [xaa] [[x01]] 36.
Definition second_demo_file : demo_file (P := example_protocol) :=
  DemoFile example_second 2%Z [xbb] [[x02]; [x03]] 38.

Lemma first_demo_file_valid : valid_demo_file first_demo_file.
Proof.
  split; [|reflexivity]. exists 2, 1, 1, 34. split_and!; try reflexivity.
  - vm_compute. lia.
  - apply (step_frames_last (P := example_protocol) example_first 35 1 36 [x01]);
      [vm_compute; lia | reflexivity | reflexivity].
Defined.

Lemma second_demo_file_valid : valid_demo_file second_demo_file.
Proof.
  split; [|reflexivity]. exists 2, 1, 1, 34. split_and!; try reflexivity.
  - vm_compute. lia.
  - apply (step_frames_more (P := example_protocol) example_second 35 1 36 [x02] [[x03]] 38);
      [vm_compute; lia | reflexivity | reflexivity |].
    apply (step_frames_last (P := example_protocol) example_second 37 1 38 [x03]);
      [vm_compute; lia | reflexivity | reflexivity].
Defined.

(** Two later files without steps: one ends with its parameter frame, the
    other with its meta frame. *)
Definition stepless_demo : demo_file (P := example_protocol) :=
  DemoFile example_stepless 0%Z [xaa] [] 35.
Definition example_header_only : bytes := [x02; x18; x00].
Definition header_only_demo : demo_file (P := example_protocol) :=
  DemoFile example_header_only 0%Z [] [] 33.

Definition stepless_later_fs : filesystem := λ path,
  if String.eqb path "demos"
  then Some (Directory ["a.demo"; "s.demo"; "notes.txt"; "b.demo"; "h.demo"])
  else if String.eqb path "demos/a.demo" then Some (RegularFile example_first)
  else if String.eqb path "demos/s.demo" then Some (RegularFile example_stepless)
  else if String.eqb path "demos/b.demo" then Some (RegularFile example_second)
  else if String.eqb path "demos/h.demo" then Some (RegularFile example_header_only)
  else None.

Lemma stepless_demo_stepless : stepless_demo_file stepless_demo.
Proof.
  split; [reflexivity|]. split; [reflexivity|]. exists 2, 1. split_and!; try reflexivity.
  right. exists 1, 34. split_and!; reflexivity.
Defined.

Lemma header_only_demo_stepless : stepless_demo_file header_only_demo.
Proof.
  split; [reflexivity|]. split; [reflexivity|]. exists 2, 1. split_and!; try reflexivity.
  left. vm_compute. lia.
Defined.

(** The records of the second file come out decoded against the parameters
    [xaa] of the first; the two stepless files add nothing. *)
Lemma aggregate_valid_files_witness :
  valid_demo_file first_demo_file ∧ stepless_demo_file stepless_demo ∧
  valid_demo_file second_demo_file ∧ stepless_demo_file header_only_demo ∧
  load_demonstration stepless_later_fs "demos" =
    Ok (Some [xaa], [([xaa], [x01]); ([xaa], [x02]); ([xaa], [x03])], 3%Z).
Proof.
  split; [exact first_demo_file_valid|]. split; [exact stepless_demo_stepless|].
  split; [exact second_demo_file_valid|]. split; [exact header_only_demo_stepless|].
  apply (aggregate_valid_files (P := example_protocol) stepless_later_fs "demos"
           ["a.demo"; "s.demo"; "notes.txt"; "b.demo"; "h.demo"] first_demo_file
           [stepless_demo; second_demo_file; header_only_demo] [xaa]
           [([xaa], [x01]); ([xaa], [x02]); ([xaa], [x03])]).
  - reflexivity.
  - constructor; [split; [reflexivity | left; exact first_demo_file_valid]|].
    constructor; [split; [reflexivity | right; exact stepless_demo_stepless]|].
    constructor; [split; [reflexivity | left; exact second_demo_file_valid]|].
    constructor; [split; [reflexivity | right; exact header_only_demo_stepless]|].
    constructor.
  - exact first_demo_file_valid.
  - reflexivity.
  - repeat constructor.
Defined.

(** C6 as stated fails: the first file declares no step and holds none, so
    no parameters are built while it is scanned; the parameters returned for
    the directory are built from the parameter frame [xbb] of the second
    file, while the parameter frame of the first file holds [xaa]. *)
Lemma aggregate_first_file_without_steps :
  read_frame example_stepless 33 = Ok ([xaa], 1, 34) ∧
  load_demonstration stepless_first_fs "demos/a.demo" = Ok (None, [], 0%Z) ∧
  load_demonstration stepless_first_fs "demos/b.demo" = Ok (Some [xbb], [([xbb], [x02])], 1%Z) ∧
  load_demonstration stepless_first_fs "demos" = Ok (Some [xbb], [([xbb], [x02])], 1%Z).
Proof. split_and!; reflexivity. Qed.

(** Loaded on its own, the second file of [two_files_fs] gives records
    decoded against its own parameters: they are not the records it
    contributes to the directory. *)
Example second_file_alone :
  load_demonstration two_files_fs "demos/b.demo" =
    Ok (Some [xbb], [([xbb], [x02]); ([xbb], [x03])], 2%Z).
Proof. reflexivity. Qed.

(** C7 at a failing input.  The guard of line 83 tests the listing, not the
    selected files: an empty directory raises [NoDemoFiles]; a directory
    whose only entry is [notes.txt] raises nothing and returns no parameter
    record, no step record and the count 0. *)
Theorem no_demo_files_guard_tests_listing :
  load_demonstration (P := example_protocol) empty_directory_fs "demos" = Err NoDemoFiles ∧
  resolve_paths notes_fs "demos" = Ok [] ∧
  load_demonstration (P := example_protocol) notes_fs "demos" = Ok (None, [], 0%Z).
Proof. split_and!; reflexivity. Qed.

Definition readme_fs : filesystem := λ path,
  if String.eqb path "docs" then Some (Directory ["README.md"; "run.txt"])
  else if String.eqb path "params_only.demo"
       then Some (RegularFile (example_file [x18; x03] [xaa] []))
       else None.

Lemma directory_without_demo_returns_none_witness :
  load_demonstration (P := example_protocol) readme_fs "docs" = Ok (None, [], 0%Z) ∧
  load_demonstration (P := example_protocol) readme_fs "params_only.demo" = Ok (None, [], 3%Z) ∧
  (∀ brain_params total_expected,
     load_demonstration (P := example_protocol) readme_fs "params_only.demo" =
       Ok (brain_params, [], total_expected) →
     brain_params = None).
Proof.
  split_and!.
  - apply (proj1 (directory_without_demo_returns_none (P := example_protocol) readme_fs "docs")
             ["README.md"; "run.txt"]).
    + reflexivity.
    + discriminate.
    + repeat constructor.
  - reflexivity.
  - apply (proj2 (directory_without_demo_returns_none (P := example_protocol)
                    readme_fs "params_only.demo")).
Defined.

(** ** The builder *)

Definition example_record (t : nat) (reward : Z) (done : bool) : StepRecord (ndarray := nat) :=
  {| sr_done := done; sr_reward := reward;
     sr_visual_observation := [100 + t; 200 + t];
     sr_vector_observation := Some (300 + t);
     sr_previous_action := 400 + t |}.

Definition example_records : list (StepRecord (ndarray := nat) (float := Z)) :=
  [example_record 0 0%Z false; example_record 1 1%Z false; example_record 2 5%Z true;
   example_record 3 0%Z false].

Lemma example_records_of : records_of (2, 1%Z) example_episode example_records.
Proof. repeat constructor. Defined.

Lemma transitions_formed_witness :
  records_of (2, 1%Z) example_episode example_records ∧
  length (transitions (zip example_episode example_records)) = 3 ∧
  make_demo_buffer (B := list _) example_episode (2, 1%Z) 2 =
    Ok (run_calls (2, 1%Z) 2 example_episode example_records) ∧
  length (appended "visual_obs1" (run_calls (2, 1%Z) 2 example_episode example_records)) = 3 ∧
  length (appended "done" (run_calls (2, 1%Z) 2 example_episode example_records)) = 3.
Proof.
  destruct (transitions_formed example_episode (2, 1%Z) 2 example_records example_records_of)
    as (_ & Hlen & _ & Hcalls & Hfields).
  split_and!.
  - exact example_records_of.
  - exact Hlen.
  - exact Hcalls.
  - apply (Hfields "visual_obs1"). vm_compute. do 3 right. left.
  - apply (Hfields "done"). vm_compute. left.
Defined.

(** The transition from step 1 to step 2, whose next record is done. *)
Lemma transition_sources_witness :
  demo_step (B := list _) example_episode (2, 1%Z) 2 [] 1 =
    Ok [SetLastBrainInfo (example_info 1 1%Z false);
        FieldAppend "done" (VBool true);
        FieldAppend "rewards" (VFloat 5%Z);
        FieldAppend "visual_obs0" (VArray 101);
        FieldAppend "visual_obs1" (VArray 201);
        FieldAppend "vector_obs" (VArray 301);
        FieldAppend "actions" (VArray 402);
        FieldAppend "prev_action" (VArray 401);
        AppendUpdateBuffer 2; ResetLocalBuffers].
Proof.
  exact (proj1 (transition_sources example_episode (2, 1%Z) 2 1
                  (example_info 1 1%Z false) (example_info 2 5%Z true)
                  (example_record 1 1%Z false) (example_record 2 5%Z true) []
                  eq_refl eq_refl eq_refl eq_refl)).
Defined.

Definition example_empty_buffer : Buffer (BrainInfo nat Z) (value nat Z) := new_buffer.

Lemma flush_schedule_witness :
  schedule (run_calls (2, 1%Z) 2 example_episode example_records) =
    [SetLastBrainInfo (example_info 0 0%Z false);
     SetLastBrainInfo (example_info 1 1%Z false);
     AppendUpdateBuffer 2; ResetLocalBuffers;
     SetLastBrainInfo (example_info 2 5%Z true);
     AppendUpdateBuffer 2] ∧
  (∃ b : Buffer (BrainInfo nat Z) (value nat Z),
     make_demo_buffer example_episode (2, 1%Z) 2 = Ok b) ∧
  (∃ b : Buffer (BrainInfo nat Z) (value nat Z),
     append_update_buffer 2 example_empty_buffer = Ok b ∧
     ∀ key, output b key = output example_empty_buffer key).
Proof.
  destruct (flush_schedule example_episode (2, 1%Z) 2 example_records) as
    ((_ & Hschedule) & Hruns & _ & Hempty).
  - lia.
  - exact example_records_of.
  - split_and!.
    + exact Hschedule.
    + exact Hruns.
    + apply (Hempty example_empty_buffer). reflexivity.
Defined.


(** * Further properties of the loader *)

Section ScannerProperties.
Context {BP BI : Type} `{P : Protocol BP BI}.

Definition state_of (c : control scan_state) : scan_state :=
  match c with Next s | Break s => s end.

(** ** What a successful scan guarantees *)

Lemma scan_step_effect data s c :
  scan_step data s = Ok c →
  brain_infos s `prefix_of` brain_infos (state_of c) ∧
  (1 ≤ obs_decoded s → total_expected (state_of c) = total_expected s) ∧
  1 ≤ obs_decoded (state_of c) ∧
  match c with
  | Break s' => Z.of_nat (length (brain_infos s')) = total_expected s'
  | Next _ => True
  end.
Proof.
  unfold scan_step.
  destruct (_DecodeVarint32 data (pos s)) as [[len body]|e]; simpl; [|done].
  destruct (obs_decoded s) as [|[|n]].
  - destruct (ParseMeta _); simpl; [|done]. intros [= <-]. simpl.
    split_and!; [done | lia | lia | done].
  - destruct (ParseBrainParameters _); simpl; [|done]. intros [= <-]. simpl.
    split_and!; [done | done | lia | done].
  - destruct (ParseAgentInfo _) as [a|]; simpl; [|done].
    destruct (match brain_params s with Some _ => _ | None => _ end) as [bp|]; simpl; [|done].
    destruct (from_agent_proto a bp) as [i|]; simpl; [|done].
    destruct (_ =? _)%Z eqn:Heq; intros [= <-]; simpl.
    + apply Z.eqb_eq in Heq. split_and!; [by eexists | done | lia | done].
    + split_and!; [by eexists | done | lia | done].
Qed.

Lemma scan_loop_effect fuel : ∀ data s s',
  1 ≤ obs_decoded s → scan_loop fuel data s = Ok s' →
  brain_infos s `prefix_of` brain_infos s' ∧
  total_expected s' = total_expected s ∧
  (length data ≤ pos s' ∨ Z.of_nat (length (brain_infos s')) = total_expected s').
Proof.
  induction fuel as [|fuel IH]; intros data s s' Hobs; simpl;
    destruct (pos s <? length data) eqn:Hlt; try done;
    try (intros [= <-]; apply Nat.ltb_ge in Hlt; split_and!; [done | done | by left]).
  destruct (scan_step data s) as [c|e] eqn:Hstep; simpl; [|done].
  apply scan_step_effect in Hstep as (Hpre & Htotal & Hobs' & Hbreak).
  destruct c as [s1|s1]; simpl in *.
  - intros Hloop. apply IH in Hloop as (Hpre' & Htotal' & Hstop); [|done].
    split_and!; [by etrans | by rewrite Htotal', Htotal | done].
  - intros [= <-]. split_and!; [done | by apply Htotal | by right].
Qed.

Lemma scan_loop_S fuel data s :
  scan_loop (S fuel) data s =
    if pos s <? length data then
      scan_step data s ≫= λ c,
        match c with
        | Next s' => scan_loop fuel data s'
        | Break s' => Ok s'
        end
    else Ok s.
Proof. done. Qed.

Lemma scan_file_effect data s s' :
  scan_file data s = Ok s' →
  brain_infos s `prefix_of` brain_infos s' ∧
  (length data ≤ pos s' ∨ Z.of_nat (length (brain_infos s')) = total_expected s') ∧
  match data with
  | [] => brain_infos s' = brain_infos s ∧ total_expected s' = total_expected s
  | _ :: _ =>
      ∃ frame_len body meta,
        _DecodeVarint32 data 0 = Ok (frame_len, body) ∧
        ParseMeta (slice data body (body + frame_len)) = Some meta ∧
        total_expected s' = (total_expected s + number_steps meta)%Z
  end.
Proof.
  unfold scan_file. destruct data as [|b data].
  - intros [= <-]. simpl. split_and!; [done | by left | done | done].
  - set (full := b :: data). rewrite scan_loop_S.
    change (pos _ <? length full) with true. cbv iota.
    destruct (scan_step full _) as [c|e] eqn:Hstep; [|done].
    unfold scan_step in Hstep. cbn [pos obs_decoded] in Hstep.
    destruct (_DecodeVarint32 full 0) as [[len body]|e]; [|done].
    cbn [mbind result_bind] in Hstep.
    destruct (ParseMeta _) as [meta|] eqn:Hmeta; [|done].
    injection Hstep as <-. cbn [mbind result_bind]. intros Hloop.
    apply scan_loop_effect in Hloop as (Hpre & Htotal & Hstop); [|simpl; lia].
    split_and!; [done | done |]. by exists len, body, meta.
Qed.

(** A scan that returns has only appended to the records; it stopped at the
    end of the buffer or with as many records as are expected in total; and
    unless the buffer is empty its first frame decoded as a meta record,
    whose step count was added to the expected total. *)
Theorem scan_file_postcondition data s s' :
  scan_file data s = Ok s' →
  brain_infos s `prefix_of` brain_infos s' ∧
  (length data ≤ pos s' ∨ Z.of_nat (length (brain_infos s')) = total_expected s') ∧
  match data with
  | [] => brain_infos s' = brain_infos s ∧ total_expected s' = total_expected s
  | _ :: _ =>
      ∃ frame_len body meta,
        _DecodeVarint32 data 0 = Ok (frame_len, body) ∧
        ParseMeta (slice data body (body + frame_len)) = Some meta ∧
        total_expected s' = (total_expected s + number_steps meta)%Z
  end.
Proof. apply scan_file_effect. Qed.

(** ** The parameter record *)

Lemma scan_step_params_kept data s c bp :
  brain_params s = Some bp → scan_step data s = Ok c →
  brain_params (state_of c) = Some bp.
Proof.
  intros Hbp. unfold scan_step. rewrite Hbp.
  destruct (_DecodeVarint32 data (pos s)) as [[len body]|e]; simpl; [|done].
  destruct (obs_decoded s) as [|[|n]].
  - destruct (ParseMeta _); simpl; [|done]. by intros [= <-].
  - destruct (ParseBrainParameters _); simpl; [|done]. by intros [= <-].
  - destruct (ParseAgentInfo _) as [a|]; simpl; [|done].
    destruct (from_agent_proto a bp); simpl; [|done].
    by destruct (_ =? _)%Z; intros [= <-].
Qed.

Lemma scan_loop_params_kept fuel : ∀ data s s' bp,
  brain_params s = Some bp → scan_loop fuel data s = Ok s' → brain_params s' = Some bp.
Proof.
  induction fuel as [|fuel IH]; intros data s s' bp Hbp; simpl;
    destruct (pos s <? length data); try done; try by intros [= <-].
  destruct (scan_step data s) as [c|e] eqn:Hstep; simpl; [|done].
  apply (scan_step_params_kept _ _ _ bp Hbp) in Hstep.
  destruct c as [s1|s1]; [by apply IH | by intros [= <-]].
Qed.

(** The parameters, once built, are never replaced: every later file is
    scanned, and its records are decoded, with the parameters already held. *)
Theorem first_parameters_are_kept fs file_paths : ∀ s s' bp,
  brain_params s = Some bp → scan_files fs file_paths s = Ok s' →
  brain_params s' = Some bp.
Proof.
  induction file_paths as [|path file_paths IH]; intros s s' bp Hbp; simpl.
  - by intros [= <-].
  - destruct (read_file fs path) as [data|e]; simpl; [|done].
    destruct (scan_file data s) as [s1|e] eqn:Hscan; simpl; [|done].
    apply IH. by apply (scan_loop_params_kept _ _ _ _ bp) in Hscan.
Qed.

Definition records_have_params (s : scan_state) : Prop :=
  brain_infos s ≠ [] → is_Some (brain_params s).

Lemma scan_step_records_have_params data s c :
  records_have_params s → scan_step data s = Ok c → records_have_params (state_of c).
Proof.
  unfold records_have_params, scan_step. intros Hinv.
  destruct (_DecodeVarint32 data (pos s)) as [[len body]|e]; simpl; [|done].
  destruct (obs_decoded s) as [|[|n]].
  - destruct (ParseMeta _); simpl; [|done]. by intros [= <-].
  - destruct (ParseBrainParameters _); simpl; [|done]. by intros [= <-].
  - destruct (ParseAgentInfo _) as [a|]; simpl; [|done].
    destruct (match brain_params s with Some _ => _ | None => _ end) as [bp|]; simpl; [|done].
    destruct (from_agent_proto a bp); simpl; [|done].
    by destruct (_ =? _)%Z; intros [= <-].
Qed.

Lemma scan_loop_records_have_params fuel : ∀ data s s',
  records_have_params s → scan_loop fuel data s = Ok s' → records_have_params s'.
Proof.
  induction fuel as [|fuel IH]; intros data s s' Hinv; simpl;
    destruct (pos s <? length data); try done; try by intros [= <-].
  destruct (scan_step data s) as [c|e] eqn:Hstep; simpl; [|done].
  apply scan_step_records_have_params in Hstep; [|done].
  destruct c as [s1|s1]; [by apply IH | by intros [= <-]].
Qed.

Lemma scan_files_records_have_params fs file_paths : ∀ s s',
  records_have_params s → scan_files fs file_paths s = Ok s' → records_have_params s'.
Proof.
  induction file_paths as [|path file_paths IH]; intros s s' Hinv; simpl.
  - by intros [= <-].
  - destruct (read_file fs path) as [data|e]; simpl; [|done].
    destruct (scan_file data s) as [s1|e] eqn:Hscan; simpl; [|done].
    apply IH. by apply scan_loop_records_have_params in Hscan.
Qed.

Lemma load_demonstration_records_have_params fs file_path brain_params brain_infos total :
  load_demonstration fs file_path = Ok (brain_params, brain_infos, total) →
  brain_infos ≠ [] → is_Some brain_params.
Proof.
  unfold load_demonstration.
  destruct (resolve_paths fs file_path) as [file_paths|e]; simpl; [|done].
  destruct (scan_files fs file_paths initial_state) as [s|e] eqn:Hscan; simpl; [|done].
  apply scan_files_records_have_params in Hscan; [|by intros []].
  intros [= <- <- _]. apply Hscan.
Qed.

(** Whenever [load_demonstration] returns a step record it returns a
    parameter record with it. *)
Theorem records_come_with_parameters fs file_path brain_params brain_infos total :
  load_demonstration fs file_path = Ok (brain_params, brain_infos, total) →
  brain_infos ≠ [] → is_Some brain_params.
Proof. apply load_demonstration_records_have_params. Qed.

End ScannerProperties.

Section ScannerEdges.
Context {BP BI : Type} `{P : Protocol BP BI}.

(** ** Files that end before the expected count is reached *)

(** [frames_to_end data pos agents final]: from [pos] on, [data] holds one
    step frame per element of [agents] and nothing more: after the last of
    them the cursor [final] is at or past the end of the buffer. *)
Inductive frames_to_end (data : bytes) : nat → list AgentInfoProto → nat → Prop :=
| frames_to_end_nil pos :
    length data ≤ pos → frames_to_end data pos [] pos
| frames_to_end_cons pos frame_len body agent_info agents final :
    pos < length data →
    _DecodeVarint32 data pos = Ok (frame_len, body) →
    ParseAgentInfo (slice data body (body + frame_len)) = Some agent_info →
    frames_to_end data (body + frame_len) agents final →
    frames_to_end data pos (agent_info :: agents) final.

Lemma frames_to_end_final data pos agents final :
  frames_to_end data pos agents final → length data ≤ final.
Proof. induction 1; done. Qed.

Lemma scan_loop_to_end data p agents final :
  frames_to_end data p agents final →
  ∀ fuel s bp infos,
    pos s = p → 2 ≤ obs_decoded s →
    (agents ≠ [] →
     match brain_params s with
     | Some held => Some held
     | None => head agents ≫= from_proto (brain_param_proto s)
     end = Some bp) →
    Forall2 (λ a i, from_agent_proto a bp = Some i) agents infos →
    (∀ j, 1 ≤ j ≤ length agents →
          Z.of_nat (length (brain_infos s) + j) ≠ total_expected s) →
    length data - p ≤ fuel →
    scan_loop fuel data s =
      Ok (ScanState (match agents with [] => brain_params s | _ => Some bp end)
            (brain_param_proto s) (brain_infos s ++ infos)
            (total_expected s) final (obs_decoded s + length agents)).
Proof.
  induction 1 as [pos0 Hend|pos0 frame_len body a agents final Hin Hdec Hparse Hrest IH];
    intros fuel s bp infos Hpos Hobs Hbp Hall Hcount Hfuel; subst pos0.
  - apply Forall2_nil_inv_l in Hall as ->.
    destruct fuel; simpl; rewrite (proj2 (Nat.ltb_ge _ _) Hend);
      destruct s; simpl; rewrite (right_id_L [] (++)), Nat.add_0_r; done.
  - apply Forall2_cons_inv_l in Hall as (i & infos' & Hi & Hall & ->).
    pose proof (DecodeVarint32_bounds _ _ _ _ Hdec) as Hb.
    destruct fuel as [|fuel]; [lia|].
    rewrite scan_loop_S, (proj2 (Nat.ltb_lt _ _) Hin).
    rewrite (scan_step_agent data s frame_len body a bp i); [|done..|by apply Hbp|done].
    rewrite (proj2 (Z.eqb_neq _ _)).
    2:{ rewrite length_app. simpl. apply Hcount. simpl. lia. }
    simpl. rewrite (IH fuel _ bp infos'); simpl; try done.
    + rewrite <- (assoc_L (++)). simpl.
      replace (S (obs_decoded s + length agents)) with (obs_decoded s + S (length agents)) by lia.
      by destruct agents.
    + lia.
    + intros j Hj. rewrite length_app. simpl.
      replace (length (brain_infos s) + 1 + j) with (length (brain_infos s) + S j) by lia.
      apply Hcount. simpl. lia.
    + lia.
Qed.

(** A file holding fewer step frames than are still expected (or more than
    a declared count of zero) is no error: when the running count never
    meets the expected total, every step frame up to the end of the buffer
    is decoded and returned, and the expected total keeps the count the meta
    record declared. *)
Theorem scanner_reads_to_end data meta params agents final s bp infos
    len0 body0 len1 body1 :
  _DecodeVarint32 data 0 = Ok (len0, body0) →
  ParseMeta (slice data body0 (body0 + len0)) = Some meta →
  INITIAL_POS < length data →
  _DecodeVarint32 data INITIAL_POS = Ok (len1, body1) →
  ParseBrainParameters (slice data body1 (body1 + len1)) = Some params →
  frames_to_end data (body1 + len1) agents final →
  (agents ≠ [] → params_in_force (brain_params s) params agents = Some bp) →
  Forall2 (λ a i, from_agent_proto a bp = Some i) agents infos →
  (∀ j, 1 ≤ j ≤ length agents →
        Z.of_nat (length (brain_infos s) + j) ≠ (total_expected s + number_steps meta)%Z) →
  scan_file data s =
    Ok (ScanState (match agents with [] => brain_params s | _ => Some bp end)
          (Some params) (brain_infos s ++ infos)
          (total_expected s + number_steps meta) final (2 + length agents))
  ∧ length infos = length agents ∧ length data ≤ final.
Proof.
  intros Hdec0 Hmeta Hlen Hdec1 Hparams Hsteps Hbp Hall Hcount.
  split; [|split; [by rewrite (Forall2_length _ _ _ Hall) | by eapply frames_to_end_final]].
  unfold INITIAL_POS in *. unfold scan_file.
  pose proof (DecodeVarint32_bounds _ _ _ _ Hdec1) as Hb1.
  replace (S (length data)) with (S (S (length data - 1))) by lia.
  rewrite (scan_loop_turn _ data _
             (ScanState (brain_params s) (brain_param_proto s) (brain_infos s)
                (total_expected s + number_steps meta) 33 1)).
  2: { simpl. lia. }
  2: { unfold scan_step. simpl. rewrite Hdec0. simpl. rewrite Hmeta. done. }
  rewrite (scan_loop_turn _ data _
             (ScanState (brain_params s) (Some params) (brain_infos s)
                (total_expected s + number_steps meta) (body1 + len1) 2)).
  2: { simpl. lia. }
  2: { unfold scan_step. simpl. rewrite Hdec1. simpl. rewrite Hparams. done. }
  rewrite (scan_loop_to_end data (body1 + len1) agents final Hsteps _ _ bp infos).
  - done.
  - done.
  - simpl. lia.
  - simpl. intros Hne. specialize (Hbp Hne). unfold params_in_force in Hbp.
    by destruct (brain_params s).
  - done.
  - done.
  - lia.
Qed.

Lemma scan_loop_end fuel data s : length data ≤ pos s → scan_loop fuel data s = Ok s.
Proof. intros Hend. destruct fuel; simpl; by rewrite (proj2 (Nat.ltb_ge _ _) Hend). Qed.

(** A non-empty file of at most 33 bytes is accepted: its meta record is
    read and counted, the cursor is set to byte 33, past the end, and the
    scan ends without a parameter frame or an error. *)
Theorem header_only_file data s frame_len body meta :
  length data ≤ INITIAL_POS →
  _DecodeVarint32 data 0 = Ok (frame_len, body) →
  ParseMeta (slice data body (body + frame_len)) = Some meta →
  scan_file data s =
    Ok (ScanState (brain_params s) (brain_param_proto s) (brain_infos s)
          (total_expected s + number_steps meta) INITIAL_POS 1).
Proof.
  intros Hlen Hdec Hmeta. unfold scan_file.
  pose proof (DecodeVarint32_bounds _ _ _ _ Hdec) as Hb.
  rewrite (scan_loop_turn _ data _
             (ScanState (brain_params s) (brain_param_proto s) (brain_infos s)
                (total_expected s + number_steps meta) INITIAL_POS 1)).
  - by apply scan_loop_end.
  - simpl. lia.
  - unfold scan_step. simpl. rewrite Hdec. simpl. rewrite Hmeta. done.
Qed.

(** ** Several files *)

Lemma scan_files_app fs (l1 l2 : list string) : ∀ s,
  scan_files fs (l1 ++ l2) s = scan_files fs l1 s ≫= scan_files fs l2.
Proof.
  induction l1 as [|path l1 IH]; intros s; simpl; [done|].
  destruct (read_file fs path) as [data|e]; simpl; [|done].
  destruct (scan_file data s) as [s1|e]; simpl; [apply IH | done].
Qed.

(** The files are scanned one after the other, each from the state the
    files before it left, and the first file that cannot be read or scanned
    ends the whole load with its error: the files after it are not looked
    at and no partial result is returned. *)
Theorem scan_files_fail_fast fs before path after s s1 e :
  scan_files fs before s = Ok s1 →
  read_file fs path ≫= (λ data, scan_file data s1) = Err e →
  scan_files fs (before ++ path :: after) s = Err e.
Proof.
  intros Hbefore Hfail. rewrite scan_files_app, Hbefore. simpl.
  destruct (read_file fs path) as [data|e']; simpl in *; [|done].
  by rewrite Hfail.
Qed.

Lemma scan_files_ext fs1 fs2 file_paths : ∀ s,
  Forall (λ path, read_file fs1 path = read_file fs2 path) file_paths →
  scan_files fs1 file_paths s = scan_files fs2 file_paths s.
Proof.
  induction file_paths as [|path file_paths IH]; intros s Hall; [done|].
  apply Forall_cons in Hall as [Hpath Hall]. simpl. rewrite Hpath.
  destruct (read_file fs2 path) as [data|e]; simpl; [|done].
  destruct (scan_file data s) as [s1|e]; simpl; [by apply IH | done].
Qed.

(** Of a directory only the listing and the entries ending in [.demo] are
    looked at: two file systems that agree on them give the same result,
    whatever else they hold. *)
Theorem load_demonstration_reads_only_demo_entries fs1 fs2 file_path all_files :
  fs1 file_path = Some (Directory all_files) →
  fs2 file_path = Some (Directory all_files) →
  (∀ _file, _file ∈ all_files → endswith _file ".demo" = true →
            fs1 (path_join file_path _file) = fs2 (path_join file_path _file)) →
  load_demonstration fs1 file_path = load_demonstration fs2 file_path.
Proof.
  intros Hdir1 Hdir2 Hsame.
  unfold load_demonstration, resolve_paths, isdir, listdir. rewrite Hdir1, Hdir2.
  destruct all_files as [|entry all_files]; [done|].
  set (entries := entry :: all_files) in *. simpl.
  rewrite (scan_files_ext fs1 fs2); [done|].
  apply Forall_fmap, Forall_forall. intros _file [Hdemo Hin]%list_elem_of_filter.
  simpl. unfold read_file. rewrite Hsame; [done | done |].
  by destruct (endswith _file ".demo").
Qed.

(** ** The errors of [load_demonstration] *)






End ScannerEdges.

(** * Further properties of the builder *)

Lemma foldM_ext {A B} (f g : B → A → result B) (l : list A) : ∀ b,
  (∀ b a, a ∈ l → f b a = g b a) → foldM f b l = foldM g b l.
Proof.
  induction l as [|a l IH]; intros b Hfg; [done|].
  rewrite !foldM_cons, Hfg by apply list_elem_of_here.
  destruct (g b a) as [b'|e]; simpl; [|done].
  apply IH. intros b0 a0 Hin. apply Hfg. by apply list_elem_of_further.
Qed.

Lemma transitions_fst {A} (l : list A) : (transitions l).*1 = take (length l - 1) l.
Proof.
  induction l as [|a [|b l] IH]; [done | done |].
  rewrite transitions_cons, fmap_cons, IH. simpl. by rewrite Nat.sub_0_r.
Qed.

Lemma transitions_snd {A} (l : list A) : (transitions l).*2 = drop 1 l.
Proof.
  induction l as [|a [|b l] IH]; [done | done |].
  rewrite transitions_cons, fmap_cons, IH. done.
Qed.

Section BuilderProperties.
Context {ndarray float BP : Type} `{!BrainParametersView BP}.

Local Abbreviation BInfo := (BrainInfo ndarray float).
Local Abbreviation Val := (value ndarray float).
Local Abbreviation Call := (buffer_op BInfo Val).
Local Abbreviation Step := (StepRecord (ndarray := ndarray) (float := float)).

(** ** Edge cases of the loop *)

(** With no record or a single one the loop body never runs: no attribute
    of a record is read (a malformed record is accepted) and the only call
    on the buffer is the final flush. *)
Theorem make_demo_buffer_short {B} `{!BufferOps BInfo Val B}
    (brain_infos : list BInfo) (brain_params : BP) (sequence_length : nat) :
  length brain_infos ≤ 1 →
  make_demo_buffer (B := B) brain_infos brain_params sequence_length =
    append_update_buffer sequence_length new_buffer.
Proof.
  intros Hlen. rewrite make_demo_buffer_range.
  by replace (length brain_infos - 1) with 0 by lia.
Qed.

(** The last record is only ever the [next] of a transition: its
    observations are never read.  Two lists that differ only in the
    observations of their last record give the same result, on any buffer. *)
Theorem last_observations_not_read {B} `{!BufferOps BInfo Val B}
    (brain_infos : list BInfo) (last last' : BInfo) (brain_params : BP)
    (sequence_length : nat) :
  local_done last = local_done last' →
  rewards last = rewards last' →
  previous_vector_actions last = previous_vector_actions last' →
  make_demo_buffer (B := B) (brain_infos ++ [last]) brain_params sequence_length =
    make_demo_buffer (B := B) (brain_infos ++ [last']) brain_params sequence_length.
Proof.
  intros Hdone Hrewards Hactions. rewrite !make_demo_buffer_range, !length_app. simpl.
  rewrite (foldM_ext _ (demo_step (brain_infos ++ [last']) brain_params sequence_length)); [done|].
  intros b idx [_ Hidx]%elem_of_seq. unfold demo_step, index.
  rewrite !(lookup_app_l _ _ idx) by lia.
  destruct (decide (idx + 1 < length brain_infos)) as [Hlt|Hge].
  - by rewrite !(lookup_app_l _ _ (idx + 1)) by lia.
  - rewrite !(lookup_app_r _ _ (idx + 1)) by lia.
    replace (idx + 1 - length brain_infos) with 0 by lia. simpl.
    by rewrite Hdone, Hrewards, Hactions.
Qed.

(** ** What each field receives over a run *)

Lemma appended_scalar_fields (brain_params : BP) (sequence_length : nat)
    (bi : BInfo) (current next : Step) :
  let calls := transition_calls brain_params sequence_length bi current next in
  appended "done" calls = [VBool (sr_done next)] ∧
  appended "rewards" calls = [VFloat (sr_reward next)] ∧
  appended "actions" calls = [VArray (sr_previous_action next)] ∧
  appended "prev_action" calls = [VArray (sr_previous_action current)].
Proof.
  intros calls. subst calls. unfold transition_calls.
  rewrite !appended_app.
  change (imap _ (sr_visual_observation current))
    with (imap (λ i obs, FieldAppend ("visual_obs" +:+ pretty (0 + i)) (VArray obs) : Call)
            (sr_visual_observation current)).
  rewrite (appended_visual_other "done"), (appended_visual_other "rewards"),
    (appended_visual_other "actions"), (appended_visual_other "prev_action") by done.
  destruct (_ >? _)%Z, (sr_vector_observation current), (sr_done next); done.
Qed.

Lemma appended_join (key : string) (calls : (BInfo * Step) * (BInfo * Step) → list Call)
    (f : (BInfo * Step) * (BInfo * Step) → Val) pairs :
  (∀ pair, appended key (calls pair) = [f pair]) →
  appended key (mjoin (calls <$> pairs)) = f <$> pairs.
Proof.
  intros Hone. induction pairs as [|pair pairs IH]; [done|].
  rewrite !fmap_cons. change (mjoin (?x :: ?l)) with (x ++ mjoin l).
  by rewrite appended_app, Hone, IH.
Qed.

Lemma transitions_next_records (brain_infos : list BInfo) (records : list Step) (f : Step → Val) :
  length brain_infos = length records →
  (λ pair, f pair.2.2) <$> transitions (zip brain_infos records) = f <$> drop 1 records.
Proof.
  intros Hlen. rewrite <- (snd_zip brain_infos records) at 2 by lia.
  rewrite <- fmap_drop, <- transitions_snd, <- !list_fmap_compose. done.
Qed.

Lemma transitions_current_records (brain_infos : list BInfo) (records : list Step)
    (f : Step → Val) :
  length brain_infos = length records →
  (λ pair, f pair.1.2) <$> transitions (zip brain_infos records) =
    f <$> take (length brain_infos - 1) records.
Proof.
  intros Hlen. rewrite <- (snd_zip brain_infos records) at 2 by lia.
  rewrite <- fmap_take.
  replace (length brain_infos - 1) with (length (zip brain_infos records) - 1)
    by (rewrite length_zip_with; lia).
  rewrite <- transitions_fst, <- !list_fmap_compose. done.
Qed.

(** Over a run, [done], [rewards] and [actions] receive, in order, the done
    flag, the reward and the previous action of the records 1 .. N-1, and
    [prev_action] the previous action of the records 0 .. N-2: the first
    record's reward and done flag are dropped, and [prev_action] is
    [actions] moved one step on. *)
Theorem fields_over_a_run (brain_infos : list BInfo) (brain_params : BP)
    (sequence_length : nat) (records : list Step) :
  records_of brain_params brain_infos records →
  ∃ log : list Call,
    make_demo_buffer brain_infos brain_params sequence_length = Ok log ∧
    appended "done" log = (λ r, VBool (sr_done r)) <$> drop 1 records ∧
    appended "rewards" log = (λ r, VFloat (sr_reward r)) <$> drop 1 records ∧
    appended "actions" log = (λ r, VArray (sr_previous_action r)) <$> drop 1 records ∧
    appended "prev_action" log =
      (λ r, VArray (sr_previous_action r)) <$> take (length brain_infos - 1) records ∧
    drop 1 (appended "prev_action" log) =
      take (length brain_infos - 2) (appended "actions" log).
Proof.
  intros Hall. pose proof (Forall2_length _ _ _ Hall) as Hlen.
  exists (run_calls brain_params sequence_length brain_infos records).
  split; [by apply make_demo_buffer_calls|].
  assert (Hfields : ∀ key (f : (BInfo * Step) * (BInfo * Step) → Val),
    (∀ pair, appended key (calls_of_pair brain_params sequence_length pair) = [f pair]) →
    appended key (run_calls brain_params sequence_length brain_infos records) =
      f <$> transitions (zip brain_infos records)).
  { intros key f Hone. unfold run_calls.
    rewrite appended_app, (appended_join key _ f) by done. apply (right_id_L [] (++)). }
  assert (Hdone : appended "done" (run_calls brain_params sequence_length brain_infos records) =
                    (λ r, VBool (sr_done r)) <$> drop 1 records).
  { rewrite (Hfields "done" (λ pair, VBool (sr_done pair.2.2))).
    - by apply (transitions_next_records _ _ (λ r, VBool (sr_done r))).
    - intros pair. apply appended_scalar_fields. }
  assert (Hrewards : appended "rewards" (run_calls brain_params sequence_length brain_infos records) =
                       (λ r, VFloat (sr_reward r)) <$> drop 1 records).
  { rewrite (Hfields "rewards" (λ pair, VFloat (sr_reward pair.2.2))).
    - by apply (transitions_next_records _ _ (λ r, VFloat (sr_reward r))).
    - intros pair. apply appended_scalar_fields. }
  assert (Hactions : appended "actions" (run_calls brain_params sequence_length brain_infos records) =
                       (λ r, VArray (sr_previous_action r)) <$> drop 1 records).
  { rewrite (Hfields "actions" (λ pair, VArray (sr_previous_action pair.2.2))).
    - by apply (transitions_next_records _ _ (λ r, VArray (sr_previous_action r))).
    - intros pair. apply appended_scalar_fields. }
  assert (Hprev : appended "prev_action" (run_calls brain_params sequence_length brain_infos records) =
                    (λ r, VArray (sr_previous_action r)) <$> take (length brain_infos - 1) records).
  { rewrite (Hfields "prev_action" (λ pair, VArray (sr_previous_action pair.1.2))).
    - by apply (transitions_current_records _ _ (λ r, VArray (sr_previous_action r))).
    - intros pair. apply appended_scalar_fields. }
  split_and!; try done.
  rewrite Hprev, Hactions, <- fmap_drop, <- fmap_take. f_equal.
  destruct (decide (length brain_infos ≤ 1)) as [Hshort|Hlong].
  - replace (length brain_infos - 1) with 0 by lia.
    replace (length brain_infos - 2) with 0 by lia. done.
  - rewrite take_drop_commute. do 2 f_equal. lia.
Qed.

(** On any implementation of the buffer, a run makes the calls of
    [run_calls] in their order, and it returns what they return: it fails
    exactly with the error of the first flush that fails. *)
Theorem builder_calls_on_any_buffer (brain_infos : list BInfo) (brain_params : BP)
    (sequence_length : nat) (records : list Step) :
  records_of brain_params brain_infos records →
  ∀ (B : Type) (ops : BufferOps BInfo Val B),
    make_demo_buffer (B := B) brain_infos brain_params sequence_length =
      replay (run_calls brain_params sequence_length brain_infos records) new_buffer.
Proof. intros Hall B ops. by apply make_demo_buffer_replay. Qed.

End BuilderProperties.

(** * [demo_to_buffer] *)

Section DemoToBuffer.
Context {ndarray float BP B : Type}.
Context `{!BrainParametersView BP}
        `{!BufferOps (BrainInfo ndarray float) (value ndarray float) B}
        `{P : Protocol BP (BrainInfo ndarray float)}.

(** [load_demonstration] returns [None] for the parameters when it decoded
    no step record, and [demo_to_buffer] passes them on as they are.
    Reading an attribute of [None] raises an AttributeError;
    [attribute_error] is the name that exception has among the errors. *)
Variable attribute_error : error.

(** [brain_params.name] *)
Definition attribute {A} (brain_params : option BP) (name : BP → A) : result A :=
  match brain_params with
  | Some brain_params => Ok (name brain_params)
  | None => Err attribute_error
  end.

(** Lines 26-47, with parameters that may be [None]. *)
Definition demo_step_optional (brain_infos : list (BrainInfo ndarray float))
    (brain_params : option BP) (sequence_length : nat) (demo_buffer : B) (idx : nat)
  : result B :=
  current_brain_info ← index brain_infos idx;
  next_brain_info ← index brain_infos (idx + 1);
  let demo_buffer := set_last_brain_info current_brain_info demo_buffer in
  done ← index (local_done next_brain_info) 0;
  let demo_buffer := field_append "done" (VBool done) demo_buffer in
  reward ← index (rewards next_brain_info) 0;
  let demo_buffer := field_append "rewards" (VFloat reward) demo_buffer in
  number ← attribute brain_params number_visual_observations;
  demo_buffer ← foldM (append_visual_obs current_brain_info) demo_buffer (seq 0 number);
  size ← attribute brain_params vector_observation_space_size;
  demo_buffer ←
    (if (size >? 0)%Z then
       obs ← index (vector_observations current_brain_info) 0;
       Ok (field_append "vector_obs" (VArray obs) demo_buffer)
     else Ok demo_buffer);
  action ← index (previous_vector_actions next_brain_info) 0;
  let demo_buffer := field_append "actions" (VArray action) demo_buffer in
  prev_action ← index (previous_vector_actions current_brain_info) 0;
  let demo_buffer := field_append "prev_action" (VArray prev_action) demo_buffer in
  done ← index (local_done next_brain_info) 0;
  if done : bool then
    demo_buffer ← append_update_buffer sequence_length demo_buffer;
    Ok (reset_local_buffers demo_buffer)
  else Ok demo_buffer.

(** Lines 23-25, with parameters that may be [None]. *)
Fixpoint demo_loop_optional (brain_infos : list (BrainInfo ndarray float))
    (brain_params : option BP) (sequence_length : nat)
    (experiences : list (BrainInfo ndarray float)) (idx : nat) (demo_buffer : B)
  : result B :=
  match experiences with
  | [] => Ok demo_buffer
  | _experience :: experiences =>
      if (Z.of_nat idx >? Z.of_nat (length brain_infos) - 2)%Z then Ok demo_buffer
      else
        demo_buffer ← demo_step_optional brain_infos brain_params sequence_length demo_buffer idx;
        demo_loop_optional brain_infos brain_params sequence_length experiences (S idx)
          demo_buffer
  end.

(** Lines 18-51, with parameters that may be [None]. *)
Definition make_demo_buffer_optional (brain_infos : list (BrainInfo ndarray float))
    (brain_params : option BP) (sequence_length : nat) : result B :=
  demo_buffer ←
    demo_loop_optional brain_infos brain_params sequence_length brain_infos 0 new_buffer;
  append_update_buffer sequence_length demo_buffer.

(** Lines 54-65. *)
Definition demo_to_buffer (fs : filesystem) (file_path : string) (sequence_length : nat)
  : result (option BP * B) :=
  '(brain_params, brain_infos, _) ← load_demonstration fs file_path;
  demo_buffer ← make_demo_buffer_optional brain_infos brain_params sequence_length;
  Ok (brain_params, demo_buffer).

Lemma demo_loop_optional_Some brain_infos brain_params sequence_length experiences :
  ∀ idx demo_buffer,
    demo_loop_optional brain_infos (Some brain_params) sequence_length experiences idx
      demo_buffer =
    demo_loop brain_infos brain_params sequence_length experiences idx demo_buffer.
Proof.
  induction experiences as [|e experiences IH]; intros idx b; [done|].
  simpl. destruct (_ >? _)%Z; [done|].
  change (demo_step_optional brain_infos (Some brain_params) sequence_length b idx)
    with (demo_step brain_infos brain_params sequence_length b idx).
  destruct (demo_step _ _ _ _ _); simpl; [apply IH | done].
Qed.

(** With parameters at hand this is [make_demo_buffer]. *)
Lemma make_demo_buffer_optional_Some brain_infos brain_params sequence_length :
  make_demo_buffer_optional brain_infos (Some brain_params) sequence_length =
    make_demo_buffer brain_infos brain_params sequence_length.
Proof.
  unfold make_demo_buffer_optional, make_demo_buffer.
  by rewrite demo_loop_optional_Some.
Qed.

(** [demo_to_buffer] is [load_demonstration] followed by
    [make_demo_buffer], with the error of whichever fails first, and it
    never reads an attribute of a missing parameter record: when the
    parameters are [None] there is no record, the loop body does not run,
    and the buffer returned has seen the final flush only. *)
Theorem demo_to_buffer_composes (fs : filesystem) (file_path : string)
    (sequence_length : nat) :
  demo_to_buffer fs file_path sequence_length =
    load_demonstration fs file_path ≫= λ '(brain_params, brain_infos, _),
      match brain_params with
      | Some params =>
          make_demo_buffer brain_infos params sequence_length ≫= λ demo_buffer,
            Ok (Some params, demo_buffer)
      | None =>
          append_update_buffer sequence_length new_buffer ≫= λ demo_buffer,
            Ok (None, demo_buffer)
      end.
Proof.
  unfold demo_to_buffer.
  destruct (load_demonstration fs file_path) as [[[brain_params brain_infos] total]|e] eqn:Hload;
    simpl; [|done].
  destruct brain_params as [params|].
  - by rewrite make_demo_buffer_optional_Some.
  - destruct brain_infos as [|bi brain_infos]; [done|].
    apply load_demonstration_records_have_params in Hload; [|done].
    by destruct Hload.
Qed.

End DemoToBuffer.

(** * The further properties on concrete inputs *)

Lemma scan_file_postcondition_witness :
  brain_infos (initial_state (P := example_protocol)) `prefix_of`
    [([xaa], [x01]); ([xaa], [x02])] ∧
  (length example_two_of_three ≤ 38 ∨ Z.of_nat 2 = 2%Z) ∧
  ∃ frame_len body meta,
    _DecodeVarint32 example_two_of_three 0 = Ok (frame_len, body) ∧
    example_ParseMeta (slice example_two_of_three body (body + frame_len)) = Some meta ∧
    2%Z = (0 + meta)%Z.
Proof.
  apply (scan_file_postcondition (P := example_protocol) example_two_of_three initial_state
           (ScanState (P := example_protocol) (Some [xaa]) (Some [xaa]) [([xaa], [x01]); ([xaa], [x02])] 2%Z 38 3)).
  reflexivity.
Defined.

Definition after_first_file : scan_state (P := example_protocol) :=
  ScanState (P := example_protocol) (Some [xaa]) (Some [xaa]) [([xaa], [x01])] 1%Z 36 2.

Lemma first_parameters_are_kept_witness :
  scan_file example_first initial_state = Ok after_first_file ∧
  scan_files two_files_fs ["demos/b.demo"] after_first_file =
    Ok (ScanState (P := example_protocol) (Some [xaa]) (Some [xbb])
          [([xaa], [x01]); ([xaa], [x02]); ([xaa], [x03])] 3%Z 38 3) ∧
  brain_params (ScanState (P := example_protocol) (Some [xaa]) (Some [xbb])
                  [([xaa], [x01]); ([xaa], [x02]); ([xaa], [x03])] 3%Z 38 3) = Some [xaa].
Proof.
  split_and!; [reflexivity | reflexivity |].
  apply (first_parameters_are_kept (P := example_protocol) two_files_fs ["demos/b.demo"]
           after_first_file); reflexivity.
Defined.

Lemma records_come_with_parameters_witness :
  load_demonstration two_of_three_fs "run.demo" =
    Ok (Some [xaa], [([xaa], [x01]); ([xaa], [x02])], 2%Z) ∧
  is_Some (Some [xaa] : option bytes).
Proof.
  split; [reflexivity|].
  apply (records_come_with_parameters (P := example_protocol) two_of_three_fs "run.demo"
           (Some [xaa]) [([xaa], [x01]); ([xaa], [x02])] 2%Z); [reflexivity | discriminate].
Defined.

(** Declares five steps and holds two step frames. *)
Definition example_two_of_five : bytes := example_file [x18; x05] [xaa] [[x01]; [x02]].

Lemma example_two_of_five_frames :
  frames_to_end (P := example_protocol) example_two_of_five 35 [[x01]; [x02]] 39.
Proof.
  apply (frames_to_end_cons (P := example_protocol) example_two_of_five 35 1 36 [x01] [[x02]] 39);
    [vm_compute; lia | reflexivity | reflexivity |].
  apply (frames_to_end_cons (P := example_protocol) example_two_of_five 37 1 38 [x02] [] 39);
    [vm_compute; lia | reflexivity | reflexivity |].
  apply (frames_to_end_nil (P := example_protocol)). vm_compute. lia.
Defined.

Lemma scanner_reads_to_end_witness :
  frames_to_end (P := example_protocol) example_two_of_five 35 [[x01]; [x02]] 39 ∧
  scan_file example_two_of_five initial_state =
    Ok (ScanState (P := example_protocol) (Some [xaa]) (Some [xaa]) [([xaa], [x01]); ([xaa], [x02])] 5%Z 39 4) ∧
  length example_two_of_five ≤ 39.
Proof.
  split; [exact example_two_of_five_frames|].
  destruct (scanner_reads_to_end (P := example_protocol) example_two_of_five 5%Z [xaa]
              [[x01]; [x02]] 39 initial_state [xaa] [([xaa], [x01]); ([xaa], [x02])]
              2 1 1 34) as (Hscan & _ & Hend).
  - reflexivity.
  - reflexivity.
  - vm_compute. lia.
  - reflexivity.
  - reflexivity.
  - exact example_two_of_five_frames.
  - reflexivity.
  - repeat constructor.
  - simpl. intros j Hj. lia.
  - split; [exact Hscan | exact Hend].
Defined.

Lemma header_only_file_witness :
  scan_file (P := example_protocol) [x02; x18; x05] initial_state =
    Ok (ScanState (P := example_protocol) None None [] 5%Z 33 1).
Proof.
  apply (header_only_file (P := example_protocol) [x02; x18; x05] initial_state 2 1 5%Z).
  - vm_compute. lia.
  - reflexivity.
  - reflexivity.
Defined.

(** A good file, then a file whose only byte opens a varint. *)
Definition bad_second_fs : filesystem := λ path,
  if String.eqb path "good.demo" then Some (RegularFile example_first)
  else if String.eqb path "bad.demo" then Some (RegularFile [x80])
  else None.

Lemma scan_files_fail_fast_witness :
  scan_files (P := example_protocol) bad_second_fs ["good.demo"; "bad.demo"; "later.demo"]
    initial_state = Err TruncatedVarint.
Proof.
  apply (scan_files_fail_fast (P := example_protocol) bad_second_fs ["good.demo"] "bad.demo"
           ["later.demo"] initial_state after_first_file TruncatedVarint); reflexivity.
Defined.

(** [two_files_fs] with something else behind [notes.txt]. *)
Definition two_files_and_notes_fs : filesystem := λ path,
  if String.eqb path "demos/notes.txt" then Some (RegularFile [xff]) else two_files_fs path.

Lemma load_demonstration_reads_only_demo_entries_witness :
  two_files_fs "demos/notes.txt" ≠ two_files_and_notes_fs "demos/notes.txt" ∧
  load_demonstration (P := example_protocol) two_files_fs "demos" =
    load_demonstration (P := example_protocol) two_files_and_notes_fs "demos".
Proof.
  split; [discriminate|].
  apply (load_demonstration_reads_only_demo_entries (P := example_protocol)
           two_files_fs two_files_and_notes_fs "demos" ["a.demo"; "notes.txt"; "b.demo"]).
  - reflexivity.
  - reflexivity.
  - intros _file Hin Hdemo.
    apply list_elem_of_In in Hin. simpl in Hin.
    destruct Hin as [<-|[<-|[<-|[]]]]; [reflexivity | discriminate Hdemo | reflexivity].
Defined.



(** A record holding nothing for any agent. *)
Definition example_hollow_info : BrainInfo nat Z := {|
  visual_observations := [];
  vector_observations := [];
  rewards := [];
  local_done := [];
  previous_vector_actions := [];
|}.

Lemma make_demo_buffer_short_witness :
  make_demo_buffer (B := list (buffer_op (BrainInfo nat Z) (value nat Z)))
    [example_hollow_info] (2, 1%Z) 2 = Ok [AppendUpdateBuffer 2].
Proof.
  exact (make_demo_buffer_short (B := list (buffer_op (BrainInfo nat Z) (value nat Z)))
           [example_hollow_info] (2, 1%Z) 2 (le_n 1)).
Defined.

(** [example_info 3 0 false] without its observations. *)
Definition example_blind_info : BrainInfo nat Z := {|
  visual_observations := [];
  vector_observations := [];
  rewards := [0%Z];
  local_done := [false];
  previous_vector_actions := [403];
|}.

Lemma last_observations_not_read_witness :
  make_demo_buffer (B := list (buffer_op (BrainInfo nat Z) (value nat Z)))
    [example_info 0 0%Z false; example_info 1 1%Z false; example_info 2 5%Z true;
     example_info 3 0%Z false] (2, 1%Z) 2 =
  make_demo_buffer (B := list (buffer_op (BrainInfo nat Z) (value nat Z)))
    [example_info 0 0%Z false; example_info 1 1%Z false; example_info 2 5%Z true;
     example_blind_info] (2, 1%Z) 2.
Proof.
  apply (last_observations_not_read
           (B := list (buffer_op (BrainInfo nat Z) (value nat Z)))
           [example_info 0 0%Z false; example_info 1 1%Z false; example_info 2 5%Z true]
           (example_info 3 0%Z false) example_blind_info (2, 1%Z) 2); reflexivity.
Defined.

Lemma fields_over_a_run_witness :
  ∃ log : list (buffer_op (BrainInfo nat Z) (value nat Z)),
    make_demo_buffer example_episode (2, 1%Z) 2 = Ok log ∧
    appended "done" log = [VBool false; VBool true; VBool false] ∧
    appended "rewards" log = [VFloat 1%Z; VFloat 5%Z; VFloat 0%Z] ∧
    appended "actions" log = [VArray 401; VArray 402; VArray 403] ∧
    appended "prev_action" log = [VArray 400; VArray 401; VArray 402] ∧
    drop 1 (appended "prev_action" log) = take 2 (appended "actions" log).
Proof.
  exact (fields_over_a_run example_episode (2, 1%Z) 2 example_records example_records_of).
Defined.

Lemma builder_calls_on_any_buffer_witness :
  make_demo_buffer (B := Buffer (BrainInfo nat Z) (value nat Z)) example_episode (2, 1%Z) 2 =
    replay (run_calls (2, 1%Z) 2 example_episode example_records) example_empty_buffer.
Proof.
  exact (builder_calls_on_any_buffer example_episode (2, 1%Z) 2 example_records
           example_records_of (Buffer (BrainInfo nat Z) (value nat Z)) _).
Defined.

(** * The expected count across files *)

Section ScannerTotals.
Context {BP BI : Type} `{P : Protocol BP BI}.

(** The step count a file declares: the [number_steps] of its first frame,
    nothing for an empty file. *)
Definition declared_steps (data : bytes) : Z :=
  match data with
  | [] => 0%Z
  | _ :: _ =>
      match _DecodeVarint32 data 0 with
      | Ok (frame_len, body) =>
          match ParseMeta (slice data body (body + frame_len)) with
          | Some meta => number_steps meta
          | None => 0%Z
          end
      | Err _ => 0%Z
      end
  end.

Definition declared_sum (fs : filesystem) (file_paths : list string) : Z :=
  foldr (λ path acc,
           (match read_file fs path with Ok data => declared_steps data | Err _ => 0 end
            + acc)%Z) 0%Z file_paths.

Lemma scan_file_declared data s s' :
  scan_file data s = Ok s' → total_expected s' = (total_expected s + declared_steps data)%Z.
Proof.
  intros Hscan. apply scan_file_effect in Hscan as (_ & _ & Hmeta).
  unfold declared_steps. destruct data as [|b data].
  - destruct Hmeta as [_ Htotal]. lia.
  - destruct Hmeta as (len & body & meta & Hdec & Hmeta & Htotal).
    by rewrite Hdec, Hmeta.
Qed.

Lemma scan_files_declared fs file_paths : ∀ s s',
  scan_files fs file_paths s = Ok s' →
  total_expected s' = (total_expected s + declared_sum fs file_paths)%Z.
Proof.
  induction file_paths as [|path file_paths IH]; intros s s'; simpl.
  - intros [= <-]. lia.
  - destruct (read_file fs path) as [data|e]; simpl; [|done].
    destruct (scan_file data s) as [s1|e] eqn:Hscan; simpl; [|done].
    intros Hrest. apply IH in Hrest. apply scan_file_declared in Hscan. lia.
Qed.

(** The count [load_demonstration] returns is the sum of the counts the
    selected files declare in their meta records, whatever the number of
    step records it returns with it. *)
Theorem expected_total_is_declared_sum fs file_path brain_params brain_infos total :
  load_demonstration fs file_path = Ok (brain_params, brain_infos, total) →
  ∃ file_paths,
    resolve_paths fs file_path = Ok file_paths ∧ total = declared_sum fs file_paths.
Proof.
  unfold load_demonstration.
  destruct (resolve_paths fs file_path) as [file_paths|e]; simpl; [|done].
  destruct (scan_files fs file_paths initial_state) as [s|e] eqn:Hscan; simpl; [|done].
  intros [= _ _ <-]. exists file_paths. split; [done|].
  apply scan_files_declared in Hscan. simpl in Hscan. lia.
Qed.

(** The gate of line 126 compares the records of all files so far with the
    counts of all files so far: a file is read up to the step frame at
    which the two meet, whatever count the file itself declares.  After a
    file that fell short, the next file is read past its declared count. *)
Theorem scanner_gate_is_cumulative data meta params agents last s bp infos :
  demo_layout data meta params agents last →
  Z.of_nat (length (brain_infos s) + length agents) =
    (total_expected s + number_steps meta)%Z →
  params_in_force (brain_params s) params agents = Some bp →
  Forall2 (λ a i, from_agent_proto a bp = Some i) agents infos →
  scan_file data s =
    Ok (ScanState (Some bp) (Some params) (brain_infos s ++ infos)
          (total_expected s + number_steps meta) last (S (length agents))).
Proof.
  intros (len0 & body0 & len1 & body1 & Hdec0 & Hmeta & Hlen & Hdec1 & Hparams & Hsteps)
    Htotal Hbp Hall.
  unfold INITIAL_POS in *. unfold scan_file.
  pose proof (DecodeVarint32_bounds _ _ _ _ Hdec1) as Hb1.
  replace (S (length data)) with (S (S (length data - 1))) by lia.
  rewrite (scan_loop_turn _ data _
             (ScanState (brain_params s) (brain_param_proto s) (brain_infos s)
                (total_expected s + number_steps meta) 33 1)).
  2: { simpl. lia. }
  2: { unfold scan_step. simpl. rewrite Hdec0. simpl. rewrite Hmeta. done. }
  rewrite (scan_loop_turn _ data _
             (ScanState (brain_params s) (Some params) (brain_infos s)
                (total_expected s + number_steps meta) (body1 + len1) 2)).
  2: { simpl. lia. }
  2: { unfold scan_step. simpl. rewrite Hdec1. simpl. rewrite Hparams. done. }
  rewrite (scan_loop_steps data (body1 + len1) agents last Hsteps _ _ bp infos).
  - simpl. replace (2 + length agents - 1) with (S (length agents)) by lia. done.
  - done.
  - simpl. lia.
  - simpl. unfold params_in_force in Hbp. by destruct (brain_params s).
  - done.
  - simpl. lia.
  - lia.
Qed.

End ScannerTotals.

(** Declares one step and holds three step frames. *)
Definition example_one_of_three : bytes := example_file [x18; x01] [xbb] [[x02]; [x03]; [x04]].

(** The state a first file leaves that declared two steps and held one. *)
Definition after_short_file : scan_state (P := example_protocol) :=
  ScanState (P := example_protocol) (Some [xaa]) (Some [xaa]) [([xaa], [x01])] 2%Z 36 2.

Lemma example_one_of_three_layout :
  demo_layout (P := example_protocol) example_one_of_three 1%Z [xbb] [[x02]; [x03]] 38.
Proof.
  exists 2, 1, 1, 34. split_and!; try reflexivity.
  - vm_compute. lia.
  - apply (step_frames_more (P := example_protocol) example_one_of_three 35 1 36 [x02] [[x03]] 38);
      [vm_compute; lia | reflexivity | reflexivity |].
    apply (step_frames_last (P := example_protocol) example_one_of_three 37 1 38 [x03]);
      [vm_compute; lia | reflexivity | reflexivity].
Defined.

Lemma scanner_gate_is_cumulative_witness :
  declared_steps (P := example_protocol) example_one_of_three = 1%Z ∧
  scan_file example_one_of_three after_short_file =
    Ok (ScanState (P := example_protocol) (Some [xaa]) (Some [xbb])
          [([xaa], [x01]); ([xaa], [x02]); ([xaa], [x03])] 3%Z 38 3).
Proof.
  split; [reflexivity|].
  apply (scanner_gate_is_cumulative (P := example_protocol) example_one_of_three 1%Z [xbb]
           [[x02]; [x03]] 38 after_short_file [xaa] [([xaa], [x02]); ([xaa], [x03])]).
  - exact example_one_of_three_layout.
  - reflexivity.
  - reflexivity.
  - repeat constructor.
Defined.

Definition two_of_five_fs : filesystem := λ path,
  if String.eqb path "short.demo" then Some (RegularFile example_two_of_five) else None.

Lemma expected_total_is_declared_sum_witness :
  load_demonstration (P := example_protocol) two_of_five_fs "short.demo" =
    Ok (Some [xaa], [([xaa], [x01]); ([xaa], [x02])], 5%Z) ∧
  ∃ file_paths,
    resolve_paths two_of_five_fs "short.demo" = Ok file_paths ∧
    5%Z = declared_sum (P := example_protocol) two_of_five_fs file_paths.
Proof.
  split; [reflexivity|].
  apply (expected_total_is_declared_sum (P := example_protocol) two_of_five_fs "short.demo"
           (Some [xaa]) [([xaa], [x01]); ([xaa], [x02])] 5%Z).
  reflexivity.
Defined.
